(** * AI-Chatbot-with-RAG: conversation orchestration and document ingestion

    A shallow embedding of [app/services/chat_service.py],
    [app/services/file_service.py], [app/services/vector_store.py] and the
    [/chat] route of [app/api/routes.py], with the properties the design
    document states about them.

    Python exceptions are values of [exn]; an [async def] that may raise is
    a computation in the monad [M], which threads the [World] (database,
    ORM unit of work, clock, log of sleeps and of scheduled tasks) and keeps
    every mutation made before a [raise], as Python does. *)

From Stdlib Require Import List String Ascii Bool Arith ZArith Lia.
From Stdlib Require Import Sorted Permutation DecimalString Strings.Byte.
Import ListNotations.
Local Open Scope string_scope.
Local Open Scope list_scope.

Set Implicit Arguments.

(* ------------------------------------------------------------------ *)
(** ** Exceptions *)

(** Only subclasses of [Exception] are modelled: they are what
    [except Exception] catches. *)
Inductive exn : Type :=
| HTTPException (status_code : nat) (detail : string)
| Error (cls : string) (msg : string).

Definition nat_to_string (n : nat) : string :=
  NilEmpty.string_of_uint (Nat.to_uint n).

(** [str(e)]: Starlette prints an [HTTPException] as [status: detail]; any
    other exception prints its message. *)
Definition str_exn (e : exn) : string :=
  match e with
  | HTTPException s d => nat_to_string s ++ ": " ++ d
  | Error _ m => m
  end.

(* ------------------------------------------------------------------ *)
(** ** The monad of computations that may raise *)

Inductive Result (A : Type) : Type :=
| Ok (a : A)
| Raise (e : exn).
Arguments Ok {A} a.
Arguments Raise {A} e.

Definition M (S A : Type) : Type := S -> Result A * S.

Definition ret {S A} (a : A) : M S A := fun s => (Ok a, s).

Definition bind {S A B} (m : M S A) (k : A -> M S B) : M S B :=
  fun s => match m s with
           | (Ok a, s') => k a s'
           | (Raise e, s') => (Raise e, s')
           end.

Definition raise {S A} (e : exn) : M S A := fun s => (Raise e, s).

(** [try: m  except Exception as e: h e] *)
Definition try_except {S A} (m : M S A) (h : exn -> M S A) : M S A :=
  fun s => match m s with
           | (Ok a, s') => (Ok a, s')
           | (Raise e, s') => h e s'
           end.

Definition get {S} : M S S := fun s => (Ok s, s).
Definition modify {S} (f : S -> S) : M S unit := fun s => (Ok tt, f s).

Declare Scope monad_scope.
Delimit Scope monad_scope with monad.
Notation "x <- m ;; k" := (bind m (fun x => k))
  (at level 61, m at next level, right associativity) : monad_scope.
Notation "m ;; k" := (bind m (fun _ => k))
  (at level 61, right associativity) : monad_scope.
Local Open Scope monad_scope.

(* ------------------------------------------------------------------ *)
(** ** Strings *)

Definition nl : string := String (ascii_of_nat 10) "".

(** [needle in hay] *)
Fixpoint contains (needle hay : string) : bool :=
  String.prefix needle hay ||
  match hay with
  | EmptyString => false
  | String _ rest => contains needle rest
  end.

(** [s.endswith(suffix)] *)
Definition endswith (s suffix : string) : bool :=
  let n := String.length s in
  let k := String.length suffix in
  (k <=? n)%nat && String.eqb (String.substring (n - k) k s) suffix.

(** A Python [str] is taken as a [string] of code points below 256.  On
    that range the upper-case letters are [A]..[Z] (65..90) and the accented
    capitals 192..222 but the multiplication sign 215; each has its
    lower-case form 32 places higher. *)
Definition lower_ascii (c : ascii) : ascii :=
  let n := nat_of_ascii c in
  if (((65 <=? n) && (n <=? 90))
      || ((192 <=? n) && (n <=? 222) && negb (n =? 215)))%nat
  then ascii_of_nat (n + 32) else c.

(** [s.lower()] *)
Fixpoint lower (s : string) : string :=
  match s with
  | EmptyString => EmptyString
  | String c rest => String (lower_ascii c) (lower rest)
  end.

(** [c.isspace()] for a code point below 256: tab, line feed, vertical tab,
    form feed, carriage return (9..13), the four separators 28..31, the
    space (32), the next-line control U+0085 (133) and the no-break space
    U+00A0 (160). *)
Definition isspace (c : ascii) : bool :=
  let n := nat_of_ascii c in
  (((9 <=? n) && (n <=? 13)) || ((28 <=? n) && (n <=? 32))
   || (n =? 133) || (n =? 160))%nat.

Fixpoint lstrip (s : string) : string :=
  match s with
  | EmptyString => EmptyString
  | String c rest => if isspace c then lstrip rest else s
  end.

Fixpoint rstrip (s : string) : string :=
  match s with
  | EmptyString => EmptyString
  | String c rest =>
      match rstrip rest with
      | EmptyString => if isspace c then EmptyString else String c EmptyString
      | r => String c r
      end
  end.

(** [s.strip()] *)
Definition strip (s : string) : string := rstrip (lstrip s).

(** Truthiness of a Python string. *)
Definition nonempty (s : string) : bool :=
  match s with EmptyString => false | _ => true end.

(** [sep.join(parts)] *)
Fixpoint join (sep : string) (parts : list string) : string :=
  match parts with
  | [] => ""
  | [p] => p
  | p :: ps => p ++ sep ++ join sep ps
  end.

(* ------------------------------------------------------------------ *)
(** ** Data model ([app/models/db_models.py]) *)

(** An embedding.  The coordinates are floating-point numbers in the store;
    they are taken here on an integer grid, where distances are exact. *)
Definition vector : Type := list Z.

Record Session : Type := mkSession
  { sess_id : string;
    sess_created_at : nat;
    sess_summary : option string }.

Record Message : Type := mkMessage
  { msg_id : nat;
    msg_session_id : string;
    msg_role : string;
    msg_content : string;
    msg_created_at : nat }.

Record Document : Type := mkDocument
  { doc_id : nat;
    doc_session_id : string;
    doc_filename : string;
    doc_content : string;
    doc_created_at : nat }.

Record DocumentChunk : Type := mkDocumentChunk
  { chunk_id : nat;
    chunk_document_id : nat;
    chunk_content : string;
    chunk_embedding : vector }.

(** The committed tables, each in insertion order. *)
Record Database : Type := mkDatabase
  { sessions : list Session;
    messages : list Message;
    documents : list Document;
    document_chunks : list DocumentChunk }.

(** An ORM object handed to [db.add]: it has no primary key and no
    [created_at] until it is flushed. *)
Inductive Row : Type :=
| NewSession (id : string)
| NewMessage (session_id role content : string)
| NewDocument (session_id filename content : string)
| NewDocumentChunk (document_id : nat) (content : string) (embedding : vector).

Definition has_session (d : Database) (sid : string) : bool :=
  existsb (fun s => String.eqb (sess_id s) sid) (sessions d).

Definition has_document (d : Database) (id : nat) : bool :=
  existsb (fun x => Nat.eqb (doc_id x) id) (documents d).

(** The next values of the serial sequences behind [messages.id],
    [documents.id] and [document_chunks.id], one sequence for each table. *)
Record Serials : Type := mkSerials
  { message_serial : nat;
    document_serial : nat;
    chunk_serial : nat }.

(** INSERT of one row at server time [t]: an integer key is drawn from the
    sequence of its table, then the primary key of [sessions] and the three
    foreign keys are checked.  The result is the new tables with the
    generated key, or nothing when a constraint fails, and the sequences
    afterwards: a value drawn for a row that is refused is not given
    back.  The integer keys are not compared with the stored ones: each
    sequence is taken to be ahead of the keys of its table, as it is when
    every key was drawn from it. *)
Definition insert_row (t : nat) (r : Row) (d : Database) (n : Serials)
  : option (Database * list nat) * Serials :=
  match r with
  | NewSession id =>
      (if has_session d id then None
       else Some (mkDatabase (sessions d ++ [mkSession id t None])
                    (messages d) (documents d) (document_chunks d), []),
       n)
  | NewMessage sid role content =>
      (if has_session d sid
       then Some (mkDatabase (sessions d)
                    (messages d ++ [mkMessage (message_serial n) sid role content t])
                    (documents d) (document_chunks d), [message_serial n])
       else None,
       mkSerials (S (message_serial n)) (document_serial n) (chunk_serial n))
  | NewDocument sid filename content =>
      (if has_session d sid
       then Some (mkDatabase (sessions d) (messages d)
                    (documents d
                     ++ [mkDocument (document_serial n) sid filename content t])
                    (document_chunks d), [document_serial n])
       else None,
       mkSerials (message_serial n) (S (document_serial n)) (chunk_serial n))
  | NewDocumentChunk did content embedding =>
      (if has_document d did
       then Some (mkDatabase (sessions d) (messages d) (documents d)
                    (document_chunks d
                     ++ [mkDocumentChunk (chunk_serial n) did content embedding]),
                  [chunk_serial n])
       else None,
       mkSerials (message_serial n) (document_serial n) (S (chunk_serial n)))
  end.

(** The flush of a unit of work, all rows or none; it stops at the first
    row that is refused. *)
Fixpoint flush (t : nat) (rows : list Row) (d : Database) (n : Serials)
  : option (Database * list nat) * Serials :=
  match rows with
  | [] => (Some (d, []), n)
  | r :: rest =>
      match insert_row t r d n with
      | (None, n1) => (None, n1)
      | (Some (d1, ids1), n1) =>
          match flush t rest d1 n1 with
          | (None, n2) => (None, n2)
          | (Some (d2, ids2), n2) => (Some (d2, ids1 ++ ids2), n2)
          end
      end
  end.

(* ------------------------------------------------------------------ *)
(** ** The world and the environment *)

Record World : Type := mkWorld
  { db : Database;            (* committed state of the store *)
    pending : list Row;       (* the AsyncSession's unit of work *)
    now : nat;                (* server clock, [func.now()] *)
    next_id : nat;            (* next value of the sequence of [messages.id] *)
    next_document_id : nat;   (* next value of the sequence of [documents.id] *)
    next_chunk_id : nat;      (* next value of the sequence of [document_chunks.id] *)
    calls : nat;              (* awaited external calls so far *)
    sleeps : list nat;        (* [asyncio.sleep] delays, in order *)
    tasks : list string }.    (* [update_summary] tasks scheduled *)

Definition set_db (d : Database) (w : World) : World :=
  mkWorld d (pending w) (now w) (next_id w) (next_document_id w) (next_chunk_id w)
    (calls w) (sleeps w) (tasks w).
Definition set_pending (p : list Row) (w : World) : World :=
  mkWorld (db w) p (now w) (next_id w) (next_document_id w) (next_chunk_id w)
    (calls w) (sleeps w) (tasks w).
Definition tick (w : World) : World :=
  mkWorld (db w) (pending w) (now w) (next_id w) (next_document_id w)
    (next_chunk_id w) (S (calls w)) (sleeps w) (tasks w).
Definition add_sleep (s : nat) (w : World) : World :=
  mkWorld (db w) (pending w) (now w) (next_id w) (next_document_id w)
    (next_chunk_id w) (calls w) (sleeps w ++ [s]) (tasks w).
Definition add_task (sid : string) (w : World) : World :=
  mkWorld (db w) (pending w) (now w) (next_id w) (next_document_id w)
    (next_chunk_id w) (calls w) (sleeps w) (tasks w ++ [sid]).

(** The sequences of the store. *)
Definition serials (w : World) : Serials :=
  mkSerials (next_id w) (next_document_id w) (next_chunk_id w).
Definition set_serials (n : Serials) (w : World) : World :=
  mkWorld (db w) (pending w) (now w) (message_serial n) (document_serial n)
    (chunk_serial n) (calls w) (sleeps w) (tasks w).
Definition committed (d : Database) (n : Serials) (w : World) : World :=
  mkWorld d [] (S (now w)) (message_serial n) (document_serial n)
    (chunk_serial n) (calls w) (sleeps w) (tasks w).

(** [app/core/config.py] *)
Record Settings : Type := mkSettings
  { LLM_PROVIDER : string;
    OPENAI_API_KEY : option string;
    OPENAI_MODEL : string;
    GOOGLE_API_KEY : option string;
    GEMINI_MODEL : string }.

Inductive ChatMessage : Type :=
| SystemMessage (content : string)
| HumanMessage (content : string)
| AIMessage (content : string).

(** A chat model client; [temperature] in tenths. *)
Record LLM : Type := mkLLM
  { llm_provider : string;
    llm_model : string;
    llm_temperature : nat }.

(** What the collaborators outside the repository do: the storage engine,
    the two providers, pypdf, the UTF-8 codec and the text splitter (by
    chunk size and overlap).  [fault k] is the exception, if any, that the
    [k]-th awaited call of the run raises. *)
Record Env : Type := mkEnv
  { settings : Settings;
    fault : nat -> option exn;
    llm_init : LLM -> option exn;
    completion : nat -> LLM -> list ChatMessage -> string;
    query_embedding : string -> vector;
    document_embeddings : list string -> list vector;
    PdfReader : list byte -> Result (list (Result string));
    decode_utf8 : list byte -> Result string;
    RecursiveCharacterTextSplitter : nat -> nat -> string -> list string }.

(** One awaited call to a collaborator; returns its index in the run. *)
Definition await (env : Env) : M World nat :=
  fun w => match fault env (calls w) with
           | Some e => (Raise e, tick w)
           | None => (Ok (calls w), tick w)
           end.

(** [await db.execute(stmt)] for a SELECT.  Whether the call is refused is
    the environment's to say, call by call.  PostgreSQL refuses every
    statement that follows a refused one in the same transaction, until the
    rollback: the environments in which the calls after a refused statement
    are refused too are among those the statements range over, and what is
    stated of a read that comes after a refused one names its outcome in the
    hypotheses. *)
Definition db_execute {A} (env : Env) (q : Database -> A) : M World A :=
  _ <- await env;;
  w <- get;;
  ret (q (db w)).

(** [db.add(obj)] and [db.add_all(objs)] *)
Definition db_add (r : Row) : M World unit :=
  modify (fun w => set_pending (pending w ++ [r]) w).
Definition db_add_all (rs : list Row) : M World unit :=
  modify (fun w => set_pending (pending w ++ rs) w).

(** [await db.commit()]: the generated keys are written back into the
    flushed objects; they are returned here in flush order.  A failed
    commit leaves the tables as they were. *)
Definition db_commit (env : Env) : M World (list nat) :=
  _ <- await env;;
  fun w => match flush (now w) (pending w) (db w) (serials w) with
           | (Some (d, ids), n) => (Ok ids, committed d n w)
           | (None, n) =>
               (Raise (Error "IntegrityError" "constraint violation"),
                set_serials n w)
           end.

(** [await db.rollback()] *)
Definition db_rollback (env : Env) : M World unit :=
  _ <- await env;;
  modify (set_pending []).

(** [await db.refresh(obj)] *)
Definition db_refresh (env : Env) : M World unit :=
  _ <- await env;; ret tt.

Definition lift {S A} (r : Result A) : M S A := fun s => (r, s).

(** Truthiness of an optional configuration string. *)
Definition configured (k : option string) : bool :=
  match k with Some s => nonempty s | None => false end.

(* ------------------------------------------------------------------ *)
(** ** [app/services/vector_store.py] *)

Inductive Embeddings : Type :=
| GoogleGenerativeAIEmbeddings (model : string)
| OpenAIEmbeddings (model : string).

Definition get_embeddings_service (env : Env) : Result Embeddings :=
  let provider := LLM_PROVIDER (settings env) in
  if String.eqb provider "gemini" then
    if negb (configured (GOOGLE_API_KEY (settings env)))
    then Raise (Error "ValueError" "GOOGLE_API_KEY is missing in configuration.")
    else Ok (GoogleGenerativeAIEmbeddings "models/text-embedding-004")
  else if String.eqb provider "openai" then
    if negb (configured (OPENAI_API_KEY (settings env)))
    then Raise (Error "ValueError" "OPENAI_API_KEY is missing in configuration.")
    else Ok (OpenAIEmbeddings "text-embedding-3-small")
  else Raise (Error "ValueError" ("Unsupported LLM_PROVIDER: " ++ provider)).

(** [await embeddings_service.aembed_query(text)] *)
Definition aembed_query (env : Env) (_ : Embeddings) (text : string)
  : M World vector :=
  _ <- await env;; ret (query_embedding env text).

(** [await embeddings_service.aembed_documents(texts)] *)
Definition aembed_documents (env : Env) (_ : Embeddings) (texts : list string)
  : M World (list vector) :=
  _ <- await env;; ret (document_embeddings env texts).

(* ------------------------------------------------------------------ *)
(** ** [app/services/file_service.py] *)

(** The loop of [parse_pdf] over [pdf_reader.pages]; the state is the
    local [text]. *)
Fixpoint extract_pages (pages : list (Result string)) : M string unit :=
  match pages with
  | [] => ret tt
  | page :: rest =>
      extracted <- lift page;;
      (if nonempty extracted
       then modify (fun text => (text ++ extracted)%string)
       else ret tt);;
      extract_pages rest
  end.

Definition parse_pdf (env : Env) (content : list byte) : Result string :=
  fst ((try_except
          (pdf_reader <- lift (PdfReader env content);;
           extract_pages pdf_reader)
          (fun _ => ret tt);;
        text <- get;;
        ret text) "").

(** Modelled from the spec: the text splitter,
    [RecursiveCharacterTextSplitter(chunk_size, chunk_overlap).split_text],
    comes from a package outside the repository, and [process_file] below
    takes it from the environment.  The design document gives its policy: a
    sliding window over the characters with a fixed size and a fixed
    overlap, which drops no trailing content (the final chunk is whatever
    remains) and yields no chunk for an empty text.  [split_text] is that
    policy. *)
Fixpoint sliding_window {A} (fuel size step : nat) (text : list A)
  : list (list A) :=
  match fuel with
  | 0 => []
  | S fuel' =>
      match text with
      | [] => []
      | _ =>
          if (List.length text <=? size)%nat then [text]
          else firstn size text :: sliding_window fuel' size step (skipn step text)
      end
  end.

Definition split_text (chunk_size chunk_overlap : nat) (text : string)
  : list string :=
  map string_of_list_ascii
    (sliding_window (String.length text) chunk_size (chunk_size - chunk_overlap)
       (list_ascii_of_string text)).

Record UploadFile : Type := mkUploadFile
  { filename : option string;
    file_bytes : list byte }.

(** [await file.read()] *)
Definition file_read (env : Env) (file : UploadFile) : M World (list byte) :=
  _ <- await env;; ret (file_bytes file).

(** [await db.refresh(db_doc)]: reloads the row by primary key. *)
Definition db_refresh_document (env : Env) (id : nat) : M World Document :=
  _ <- await env;;
  w <- get;;
  match find (fun x => Nat.eqb (doc_id x) id) (documents (db w)) with
  | Some x => ret x
  | None => raise (Error "InvalidRequestError" "Could not refresh instance")
  end.

Definition unsupported_format : exn :=
  HTTPException 400 "Unsupported file format. Only PDF and TXT are supported.".

Definition empty_content : exn :=
  HTTPException 400 "File content is empty or could not be extracted.".

Definition error_reading_file (e : exn) : exn :=
  HTTPException 400 ("Error reading file: " ++ str_exn e).

Definition error_processing_file (e : exn) : exn :=
  HTTPException 500 ("Internal Server Error processing file: " ++ str_exn e).

(** Step 1 of [process_file]: the first [try] block. *)
Definition read_content (env : Env) (file : UploadFile) (filename : string)
  : M World string :=
  try_except
    (if endswith (lower filename) ".pdf" then
       pdf_content <- file_read env file;;
       lift (parse_pdf env pdf_content)
     else if endswith (lower filename) ".txt" then
       raw <- file_read env file;;
       lift (decode_utf8 env raw)
     else raise unsupported_format)
    (fun e => raise (error_reading_file e)).

(** Steps 2 to 5 of [process_file]: the second [try] block. *)
Definition store_document (env : Env) (session_id filename content : string)
  : M World Document :=
  try_except
    (db_add (NewDocument session_id filename content);;
     ids <- db_commit env;;
     db_doc <- db_refresh_document env (last ids 0);;
     let chunks := RecursiveCharacterTextSplitter env 800 100 content in
     match chunks with
     | [] => ret db_doc
     | _ =>
         embeddings_service <- lift (get_embeddings_service env);;
         vectors <- aembed_documents env embeddings_service chunks;;
         db_add_all
           (map (fun cv => NewDocumentChunk (doc_id db_doc) (fst cv) (snd cv))
              (combine chunks vectors));;
         _ <- db_commit env;;
         ret db_doc
     end)
    (fun e =>
       db_rollback env;;
       raise (error_processing_file e)).

(** [file.filename if file.filename else "unknown"] *)
Definition upload_filename (file : UploadFile) : string :=
  match filename file with
  | Some f => if nonempty f then f else "unknown"
  | None => "unknown"
  end.

Definition process_file (env : Env) (file : UploadFile) (session_id : string)
  : M World Document :=
  let filename := upload_filename file in
  content <- read_content env file filename;;
  if negb (nonempty (strip content)) then raise empty_content
  else store_document env session_id filename content.

(* ------------------------------------------------------------------ *)
(** ** Queries *)

(** ORDER BY: a stable insertion sort, rows that compare equal keep their
    table order. *)
Fixpoint insert_by {A} (leb : A -> A -> bool) (x : A) (l : list A) : list A :=
  match l with
  | [] => [x]
  | y :: rest => if leb x y then x :: l else y :: insert_by leb x rest
  end.

Definition sort_by {A} (leb : A -> A -> bool) (l : list A) : list A :=
  fold_right (insert_by leb) [] l.

(** [select(Message).where(Message.session_id == session_id)
      .order_by(Message.created_at.desc()).limit(n)] *)
Definition newer (a b : Message) : bool :=
  (msg_created_at b <=? msg_created_at a)%nat.

Definition session_messages (d : Database) (session_id : string) : list Message :=
  filter (fun m => String.eqb (msg_session_id m) session_id) (messages d).

Definition last_messages (n : nat) (session_id : string) (d : Database)
  : list Message :=
  firstn n (sort_by newer (session_messages d session_id)).

(** [select(Session).where(Session.id == session_id)] with
    [scalar_one_or_none()] *)
Definition find_session (session_id : string) (d : Database) : option Session :=
  find (fun s => String.eqb (sess_id s) session_id) (sessions d).

(** pgvector's [<->], squared: the order of the squares is the order of
    the Euclidean distances.  The column type fixes one dimension for the
    whole store. *)
Definition l2_distance_sq (u v : vector) : Z :=
  fold_right Z.add 0%Z (map (fun p => ((fst p - snd p) * (fst p - snd p))%Z) (combine u v)).

Definition closer (q : vector) (a b : DocumentChunk) : bool :=
  (l2_distance_sq (chunk_embedding a) q <=? l2_distance_sq (chunk_embedding b) q)%Z.

(** [select(DocumentChunk).join(Document, DocumentChunk.document_id == Document.id)
      .where(Document.session_id == session_id)]: a row per matching pair. *)
Definition session_chunks (d : Database) (session_id : string)
  : list DocumentChunk :=
  flat_map
    (fun c =>
       map (fun _ => c)
         (filter (fun x => Nat.eqb (chunk_document_id c) (doc_id x)
                           && String.eqb (doc_session_id x) session_id)
            (documents d)))
    (document_chunks d).

(** [... .order_by(DocumentChunk.embedding.l2_distance(query_vector)).limit(3)] *)
Definition top_chunks (session_id : string) (query_vector : vector) (d : Database)
  : list DocumentChunk :=
  firstn 3 (sort_by (closer query_vector) (session_chunks d session_id)).

(** [update(Session).where(Session.id == session_id).values(summary=new_summary)] *)
Definition update_session_summary (session_id new_summary : string) (d : Database)
  : Database :=
  mkDatabase
    (map (fun s => if String.eqb (sess_id s) session_id
                   then mkSession (sess_id s) (sess_created_at s) (Some new_summary)
                   else s) (sessions d))
    (messages d) (documents d) (document_chunks d).

(* ------------------------------------------------------------------ *)
(** ** [app/services/chat_service.py] *)

Definition get_llm (env : Env) : Result LLM :=
  let llm :=
    if String.eqb (LLM_PROVIDER (settings env)) "gemini"
    then mkLLM "gemini" (GEMINI_MODEL (settings env)) 7
    else mkLLM "openai" (OPENAI_MODEL (settings env)) 7 in
  match llm_init env llm with
  | Some e => Raise e
  | None => Ok llm
  end.

(** [(await llm.ainvoke(messages)).content] *)
Definition ainvoke (env : Env) (llm : LLM) (messages : list ChatMessage)
  : M World string :=
  k <- await env;; ret (completion env k llm messages).

(** [await asyncio.sleep(delay)] *)
Definition sleep (delay : nat) : M World unit := modify (add_sleep delay).

(** [f"{x}"] for an optional string. *)
Definition format_optional (x : option string) : string :=
  match x with Some s => s | None => "None" end.

Definition summary_prompt (current_summary : option string)
  (recent_messages : list Message) : string :=
  join nl
    [ "";
      "            You are an expert summarizer. Update the conversation summary based on the new messages.";
      "            ";
      "            Current Summary:";
      ("            " ++ format_optional current_summary)%string;
      "            ";
      "            Recent Messages:";
      ("            "
         ++ join nl (map (fun msg => msg_role msg ++ ": " ++ msg_content msg)
                       recent_messages))%string;
      "            ";
      "            Instruction:";
      "            - Incorporate meaningful new information into the summary.";
      "            - Keep the summary concise (under 200 words).";
      "            - Maintain key details from the 'Current Summary' if they are still relevant.";
      "            " ].

(** The body of the [try] block of [update_summary].  The task opens its
    own [SessionLocal()]: it reads the committed store, and its UPDATE
    reaches the store when its commit succeeds. *)
Definition update_summary_body (env : Env) (session_id : string) : M World unit :=
  recent_messages <- db_execute env (fun d => rev (last_messages 10 session_id d));;
  match recent_messages with
  | [] => ret tt
  | _ =>
      session_obj <- db_execute env (find_session session_id);;
      let current_summary :=
        match session_obj with
        | Some s => sess_summary s
        | None => Some "No summary yet."
        end in
      llm0 <- lift (get_llm env);;
      let llm := mkLLM (llm_provider llm0) (llm_model llm0) 3 in
      let prompt := summary_prompt current_summary recent_messages in
      new_summary <- ainvoke env llm [HumanMessage prompt];;
      _ <- await env;;
      _ <- await env;;
      modify (fun w => set_db (update_session_summary session_id new_summary (db w)) w)
  end.

Definition update_summary (env : Env) (session_id : string) : M World unit :=
  try_except (update_summary_body env session_id) (fun _ => ret tt).

Definition overloaded_reply : string :=
  "I apologize, but I am currently overloaded. Please try again later.".

Definition internal_error_reply : string :=
  "I apologize, but I encountered an internal error while processing your request.".

(** Stage 1: ensure the session exists; returns [session_summary]. *)
Definition ensure_session (env : Env) (session_id : string) : M World string :=
  session_obj <- db_execute env (find_session session_id);;
  match session_obj with
  | None =>
      db_add (NewSession session_id);;
      _ <- db_commit env;;
      ret ""
  | Some s =>
      ret (match sess_summary s with Some t => t | None => "" end)
  end.

(** Stage 2: save the user message. *)
Definition save_message (env : Env) (session_id role content : string)
  : M World unit :=
  db_add (NewMessage session_id role content);;
  _ <- db_commit env;;
  ret tt.

(** Stage 3, inside its [try]: the vector search. *)
Definition retrieve_chunks (env : Env) (session_id user_query : string)
  : M World (list DocumentChunk) :=
  embeddings_service <- lift (get_embeddings_service env);;
  query_vector <- aembed_query env embeddings_service user_query;;
  db_execute env (top_chunks session_id query_vector).

Definition retrieve_context (env : Env) (session_id user_query : string)
  : M World string :=
  try_except
    (relevant_chunks <- retrieve_chunks env session_id user_query;;
     match relevant_chunks with
     | [] => ret "No relevant documents found."
     | _ => ret (join (nl ++ nl)%string
                   (map (fun chunk => ("[Chunk]: " ++ chunk_content chunk)%string)
                      relevant_chunks))
     end)
    (fun _ => ret "Error retrieving context.").

(** Stage 4: the last 6 messages, reversed to chronological order. *)
Definition read_history (env : Env) (session_id : string)
  : M World (list Message) :=
  db_execute env (fun d => rev (last_messages 6 session_id d)).

(** Stage 5: the system prompt and the history. *)
Definition system_prompt (context_text session_summary : string) : string :=
  join nl
    [ "You are an intelligent AI Assistant for the 'Atlantis' system.";
      "";
      "        Instructions:";
      "        1. Answer the user's question accurately.";
      "        2. Use the provided 'Context from Documents' if relevant.";
      "        3. Use the 'Conversation Summary' and 'Conversation History' to maintain continuity.";
      "        4. If the answer is not in the context, use your general knowledge but mention that it's outside the provided documents.";
      "";
      "        Context from Documents (RAG):";
      ("        " ++ context_text)%string;
      "";
      "        Conversation Summary (Long-term Memory):";
      ("        " ++ session_summary)%string;
      "        " ].

Definition history_message (msg : Message) : list ChatMessage :=
  if String.eqb (msg_role msg) "user" then [HumanMessage (msg_content msg)]
  else if String.eqb (msg_role msg) "assistant" then [AIMessage (msg_content msg)]
  else [].

Definition build_messages (context_text session_summary : string)
  (history_records : list Message) : list ChatMessage :=
  SystemMessage (system_prompt context_text session_summary)
  :: flat_map history_message history_records.

Definition is_quota_error (e : exn) : bool :=
  contains "429" (str_exn e) || contains "RESOURCE_EXHAUSTED" (str_exn e).

(** Stage 6: [for attempt in range(max_retries)], over the attempts left.
    An iteration ends in [inl text] at the [break] and in [inr tt] at the
    [continue]. *)
Fixpoint llm_attempts (env : Env) (messages : list ChatMessage)
  (max_retries : nat) (attempts : list nat) (retry_delay : nat)
  (ai_response_text : string) : M World string :=
  match attempts with
  | [] => ret ai_response_text
  | attempt :: rest =>
      step <- try_except
                (llm <- lift (get_llm env);;
                 content <- ainvoke env llm messages;;
                 ret (inl content))
                (fun e =>
                   if is_quota_error e && (attempt <? max_retries - 1)%nat
                   then sleep retry_delay;; ret (inr tt)
                   else raise e);;
      match step with
      | inl content => ret content
      | inr _ => llm_attempts env messages max_retries rest (retry_delay * 2)
                   ai_response_text
      end
  end.

Definition generate (env : Env) (messages : list ChatMessage) : M World string :=
  let max_retries := 3 in
  let retry_delay := 5 in
  llm_attempts env messages max_retries (seq 0 max_retries) retry_delay
    overloaded_reply.

(** Stages 1 to 4: [session_summary], [context_text] and
    [history_records] as stage 5 receives them. *)
Definition prepare_turn (env : Env) (session_id user_query : string)
  : M World (string * string * list Message) :=
  session_summary <- ensure_session env session_id;;
  save_message env session_id "user" user_query;;
  context_text <- retrieve_context env session_id user_query;;
  history_records <- read_history env session_id;;
  ret (session_summary, context_text, history_records).

(** The body of the [try] block of [process_chat]. *)
Definition process_chat_body (env : Env) (session_id user_query : string)
  : M World string :=
  prepared <- prepare_turn env session_id user_query;;
  let '(session_summary, context_text, history_records) := prepared in
  let messages := build_messages context_text session_summary history_records in
  ai_response_text <- generate env messages;;
  save_message env session_id "assistant" ai_response_text;;
  modify (add_task session_id);;
  ret ai_response_text.

Definition process_chat (env : Env) (session_id user_query : string)
  : M World string :=
  try_except (process_chat_body env session_id user_query)
    (fun _ => ret internal_error_reply).

(* ------------------------------------------------------------------ *)
(** ** [app/api/routes.py] and [app/api/schemas.py] *)

Record ChatRequest : Type := mkChatRequest
  { request_query : string;
    request_session_id : string }.

Record ChatResponse : Type := mkChatResponse
  { response : string;
    response_session_id : string }.

Definition chat_endpoint (env : Env) (request : ChatRequest)
  : M World ChatResponse :=
  try_except
    (response_text <- process_chat env (request_session_id request)
                        (request_query request);;
     ret (mkChatResponse response_text (request_session_id request)))
    (fun _ => raise (HTTPException 500 "Internal Server Error during chat processing.")).

Record UploadResponse : Type := mkUploadResponse
  { upload_response_filename : string;
    upload_response_session_id : string;
    upload_response_message : string }.

(** The [/upload] route: an [HTTPException] of [process_file] is re-raised
    as it is, any other exception becomes a 500. *)
Definition upload_endpoint (env : Env) (file : UploadFile) (session_id : string)
  : M World UploadResponse :=
  try_except
    (_ <- process_file env file session_id;;
     ret (mkUploadResponse (upload_filename file) session_id
            "File uploaded and processed successfully."))
    (fun e =>
       match e with
       | HTTPException _ _ => raise e
       | Error _ _ =>
           raise (HTTPException 500 "Internal Server Error during file upload.")
       end).

(* ------------------------------------------------------------------ *)
(** ** [app/core/config.py]: the settings read from the environment *)

(** [os.getenv(key, default)] *)
Definition getenv_default (getenv : string -> option string)
  (key default : string) : string :=
  match getenv key with
  | Some v => v
  | None => default
  end.

(** [a or b] on optional strings. *)
Definition or_else (a b : option string) : option string :=
  if configured a then a else b.

(** The class attributes of [Settings], but [DATABASE_URL]. *)
Definition load_settings (getenv : string -> option string) : Settings :=
  mkSettings
    (lower (getenv_default getenv "LLM_PROVIDER" "gemini"))
    (getenv "OPENAI_API_KEY")
    (getenv_default getenv "OPENAI_MODEL" "gpt-3.5-turbo")
    (or_else (getenv "GOOGLE_API_KEY") (getenv "GEMINI_API_KEY"))
    (getenv_default getenv "GEMINI_MODEL" "gemini-2.0-flash").

(** [768 if LLM_PROVIDER == "gemini" else 1536] *)
Definition EMBEDDING_DIMENSION (s : Settings) : nat :=
  if String.eqb (LLM_PROVIDER s) "gemini" then 768 else 1536.

(** The environment with other settings. *)
Definition with_settings (s : Settings) (env : Env) : Env :=
  mkEnv s (fault env) (llm_init env) (completion env) (query_embedding env)
    (document_embeddings env) (PdfReader env) (decode_utf8 env)
    (RecursiveCharacterTextSplitter env).

(* ------------------------------------------------------------------ *)
(** ** Notions used in the statements *)

(** The text of the pages that come before the first page whose
    extraction raises. *)
Fixpoint text_before_failure (pages : list (Result string)) : string :=
  match pages with
  | Ok extracted :: rest => extracted ++ text_before_failure rest
  | _ => ""
  end.

(** The text of all the pages that can be extracted. *)
Fixpoint extractable_text (pages : list (Result string)) : string :=
  match pages with
  | [] => ""
  | Ok extracted :: rest => extracted ++ extractable_text rest
  | Raise _ :: rest => extractable_text rest
  end.

(** *** Frame conditions *)

(** [m] relates the world it starts from to the world it ends in by [R],
    whether it returns or raises. *)
Definition preserves {A} (R : World -> World -> Prop) (m : M World A) : Prop :=
  forall w r w', m w = (r, w') -> R w w'.

Definition same_db (w w' : World) : Prop := db w' = db w.
Definition same_sleeps (w w' : World) : Prop := sleeps w' = sleeps w.
Definition same_pending (w w' : World) : Prop := pending w' = pending w.

(** *** Orders *)

(** [a] is at most as far from the query vector as [b]. *)
Definition nearer_eq (q : vector) (a b : DocumentChunk) : Prop :=
  (l2_distance_sq (chunk_embedding a) q <= l2_distance_sq (chunk_embedding b) q)%Z.

(** [a] was created no earlier than [b]. *)
Definition newer_eq (a b : Message) : Prop :=
  msg_created_at b <= msg_created_at a.

(** *** Kinds of upload *)

Definition pdf_upload (file : UploadFile) : Prop :=
  endswith (lower (upload_filename file)) ".pdf" = true.

Definition txt_upload (file : UploadFile) : Prop :=
  endswith (lower (upload_filename file)) ".pdf" = false /\
  endswith (lower (upload_filename file)) ".txt" = true.

(** *** What a run may write *)

(** Every table of [d'] is the table of [d] with rows appended. *)
Definition extends (d d' : Database) : Prop :=
  (exists rows, sessions d' = sessions d ++ rows) /\
  (exists rows, messages d' = messages d ++ rows) /\
  (exists rows, documents d' = documents d ++ rows) /\
  (exists rows, document_chunks d' = document_chunks d ++ rows).

Definition append_only (w w' : World) : Prop := extends (db w) (db w').

Definition chat_role (role : string) : Prop :=
  role = "user" \/ role = "assistant".

(** The rows a chat turn on [session_id] hands to the unit of work. *)
Definition turn_row (session_id : string) (r : Row) : Prop :=
  match r with
  | NewSession id => id = session_id
  | NewMessage sid role _ => sid = session_id /\ chat_role role
  | _ => False
  end.

(** From a unit of work that holds rows of a turn on [session_id] only, the
    run leaves such a unit of work, writes no Document and no chunk, and
    appends at most session rows for [session_id] and messages of
    [session_id] with a chat role. *)
Definition turn_writes (session_id : string) (w w' : World) : Prop :=
  Forall (turn_row session_id) (pending w) ->
  Forall (turn_row session_id) (pending w') /\
  documents (db w') = documents (db w) /\
  document_chunks (db w') = document_chunks (db w) /\
  (exists rows, sessions (db w') = sessions (db w) ++ rows /\
                Forall (fun s => sess_id s = session_id) rows) /\
  (exists rows, messages (db w') = messages (db w) ++ rows /\
                Forall (fun m => msg_session_id m = session_id /\
                                 chat_role (msg_role m)) rows).

(** The rows of [sessions] but [session_id] are the same, and the row of
    [session_id] differs by its summary at most. *)
Definition same_but_summary (session_id : string) (d d' : Database) : Prop :=
  messages d' = messages d /\
  documents d' = documents d /\
  document_chunks d' = document_chunks d /\
  map sess_id (sessions d') = map sess_id (sessions d) /\
  map sess_created_at (sessions d') = map sess_created_at (sessions d) /\
  forall s, In s (sessions d) -> sess_id s <> session_id -> In s (sessions d').

(** The run leaves the store and the unit of work as they were. *)
Definition same_store (w w' : World) : Prop :=
  db w' = db w /\ pending w' = pending w.

(** The run changes nothing but the count of awaited calls. *)
Definition same_but_calls (w w' : World) : Prop :=
  db w' = db w /\ pending w' = pending w /\ now w' = now w /\
  next_id w' = next_id w /\ sleeps w' = sleeps w /\ tasks w' = tasks w /\
  next_document_id w' = next_document_id w /\
  next_chunk_id w' = next_chunk_id w.

(** The chunk rows of the Document [document_id] for the pairs of a text
    and its vector, with the serial keys from [n] on. *)
Fixpoint chunk_rows (n document_id : nat) (pairs : list (string * vector))
  : list DocumentChunk :=
  match pairs with
  | [] => []
  | p :: rest =>
      mkDocumentChunk n document_id (fst p) (snd p)
      :: chunk_rows (S n) document_id rest
  end.

(** No collaborator raises FastAPI's [HTTPException]. *)
Definition no_http_fault (env : Env) : Prop :=
  forall k status detail, fault env k <> Some (HTTPException status detail).

(* ------------------------------------------------------------------ *)
(** ** Sample environments, stores and runs *)

Definition sample_settings : Settings :=
  mkSettings "gemini" None "gpt-3.5-turbo" (Some "key") "gemini-2.0-flash".

(** A codec for the samples: UTF-8 on the code points below 256.  A byte
    below [0x80] is its own code point; [0xc2] and [0xc3] start the
    two-byte sequences of the code points from 128 to 255; any other byte
    is refused. *)
Fixpoint utf8_decode (raw : list byte) : option string :=
  match raw with
  | [] => Some EmptyString
  | b :: rest =>
      let n := Byte.to_nat b in
      if (n <? 128)%nat
      then option_map (String (ascii_of_nat n)) (utf8_decode rest)
      else
        match rest with
        | [] => None
        | b2 :: rest2 =>
            let m := Byte.to_nat b2 in
            if (((n =? 194) || (n =? 195)) && (128 <=? m) && (m <? 192))%nat
            then option_map (String (ascii_of_nat (m + (n - 194) * 64)))
                   (utf8_decode rest2)
            else None
        end
  end.

Definition sample_decode (raw : list byte) : Result string :=
  match utf8_decode raw with
  | Some text => Ok text
  | None => Raise (Error "UnicodeDecodeError" "invalid start byte")
  end.

(** A reader for the samples: a file that starts with [%] holds pages
    separated by form feeds, and a page that contains a null byte cannot be
    extracted; any other file is corrupt. *)
Definition sample_page (page : list byte) : Result string :=
  if existsb (Byte.eqb x00) page
  then Raise (Error "PdfReadError" "bad content stream")
  else Ok (string_of_list_byte page).

Fixpoint sample_pages (raw page : list byte) : list (Result string) :=
  match raw with
  | [] => [sample_page page]
  | x0c :: rest => sample_page page :: sample_pages rest []
  | b :: rest => sample_pages rest (page ++ [b])
  end.

Definition sample_reader (raw : list byte) : Result (list (Result string)) :=
  match raw with
  | x25 :: rest => Ok (sample_pages rest [])
  | _ => Raise (Error "PdfReadError" "EOF marker not found")
  end.

Definition sample_env (fault : nat -> option exn) : Env :=
  mkEnv sample_settings fault (fun _ => None) (fun _ _ _ => "Hello")
    (fun _ => [1%Z; 2%Z]) (map (fun _ => [0%Z; 0%Z]))
    sample_reader sample_decode split_text.

Definition no_fault (k : nat) : option exn := None.

Definition quota_error : exn :=
  Error "ResourceExhausted" "429 RESOURCE_EXHAUSTED: quota exceeded".

Definition provider_down : exn :=
  Error "ConnectionError" "embedding provider unreachable".

(** The provider is out of quota from the [k0]-th call on. *)
Definition quota_from (k0 k : nat) : option exn :=
  if (k0 <=? k)%nat then Some quota_error else None.

(** Only the [k0]-th call fails. *)
Definition fault_at (k0 : nat) (e : exn) (k : nat) : option exn :=
  if (k =? k0)%nat then Some e else None.

Definition empty_world : World :=
  mkWorld (mkDatabase [] [] [] []) [] 0 1 1 1 0 [] [].

(** A store with the session [s1] and no other row. *)
Definition session_world : World :=
  mkWorld (mkDatabase [mkSession "s1" 0 None] [] [] []) [] 1 1 1 1 0 [] [].

(** Stages 1 to 4 of a first turn on [s1] while the provider is out of
    quota from the seventh call on, which is the first call to the model. *)
Definition quota_turn : Result (string * string * list Message) * World :=
  Eval vm_compute in
    prepare_turn (sample_env (quota_from 6)) "s1" "hi" empty_world.

(** Two sessions with a document each: the chunks 11, 13, 14 and 15 belong
    to [s1], the chunk 12 to [s2]. *)
Definition library_world : World :=
  mkWorld
    (mkDatabase
       [mkSession "s1" 0 None; mkSession "s2" 1 (Some "About whales.")]
       [mkMessage 3 "s1" "user" "hello" 2; mkMessage 4 "s1" "assistant" "Hello" 3]
       [mkDocument 1 "s1" "a.txt" "alpha" 4; mkDocument 2 "s2" "b.txt" "beta" 5]
       [mkDocumentChunk 11 1 "alpha one" [1%Z; 2%Z];
        mkDocumentChunk 12 2 "beta one" [1%Z; 2%Z];
        mkDocumentChunk 13 1 "alpha two" [5%Z; 5%Z];
        mkDocumentChunk 14 1 "alpha three" [0%Z; 0%Z];
        mkDocumentChunk 15 1 "alpha four" [1%Z; 3%Z]])
    [] 6 16 3 16 0 [] [].

(** Stages 1 to 4 of a further turn on [s1] in [library_world]. *)
Definition chat_turn : Result (string * string * list Message) * World :=
  Eval vm_compute in
    prepare_turn (sample_env no_fault) "s1" "and then?" library_world.

(** The upload of [notes.txt] to [s1] with every collaborator up. *)
Definition upload_run : Result Document * World :=
  Eval vm_compute in
    process_file (sample_env no_fault)
      (mkUploadFile (Some "notes.txt") [x61; x20; x62]) "s1" session_world.

(** A whole first turn on [s1] with every collaborator up. *)
Definition first_turn : Result string * World :=
  Eval vm_compute in process_chat (sample_env no_fault) "s1" "hi" empty_world.

(** The store after the upload of [notes.txt] to [s1], with a second
    session [s2] that has no document. *)
Definition upload_world : World :=
  mkWorld
    (mkDatabase
       [mkSession "s1" 0 None; mkSession "s2" 1 None]
       []
       [mkDocument 1 "s1" "notes.txt" "a b" 2]
       [mkDocumentChunk 1 1 "a b" [0%Z; 0%Z]])
    [] 4 1 2 2 0 [] [].

(** Settings that name a provider the application does not know. *)
Definition claude_settings : Settings :=
  mkSettings "claude" (Some "key") "gpt-3.5-turbo" None "gemini-2.0-flash".

(** The first two stages, and the whole, of a first turn on [s1] while the
    provider is out of quota from the seventh call on. *)
Definition quota_stage1 : Result string * World :=
  Eval vm_compute in
    ensure_session (sample_env (quota_from 6)) "s1" empty_world.

Definition quota_stage2 : Result unit * World :=
  Eval vm_compute in
    save_message (sample_env (quota_from 6)) "s1" "user" "hi" (snd quota_stage1).

Definition quota_run : Result string * World :=
  Eval vm_compute in process_chat (sample_env (quota_from 6)) "s1" "hi" empty_world.

(** The store refuses a statement for its data, and then every statement
    of the same transaction. *)
Definition statement_error : exn :=
  Error "DataError" "different vector dimensions 768 and 2".

Definition aborted_transaction : exn :=
  Error "InFailedSQLTransactionError"
    "current transaction is aborted, commands ignored until end of transaction block".

Definition aborted_from (k0 k : nat) : option exn :=
  if (k =? k0)%nat then Some statement_error
  else if (k0 <? k)%nat then Some aborted_transaction
  else None.

(** The first two stages of a first turn on [s1] whose search, the fifth
    awaited call, is refused. *)
Definition aborted_stage1 : Result string * World :=
  Eval vm_compute in
    ensure_session (sample_env (aborted_from 4)) "s1" empty_world.

Definition aborted_stage2 : Result unit * World :=
  Eval vm_compute in
    save_message (sample_env (aborted_from 4)) "s1" "user" "hi" (snd aborted_stage1).

(** The [/upload] request for [notes.txt] while the embedding provider is
    down. *)
Definition upload_failure : Result UploadResponse * World :=
  Eval vm_compute in
    upload_endpoint (sample_env (fault_at 3 provider_down))
      (mkUploadFile (Some "notes.txt") [x61; x20; x62]) "s1" session_world.

(** A consolidation of [s1] in [library_world] with every collaborator
    up. *)
Definition consolidation : Result unit * World :=
  Eval vm_compute in update_summary (sample_env no_fault) "s1" library_world.

(** An environment of the process that names the provider in mixed case
    and holds the key under [GEMINI_API_KEY] only. *)
Definition sample_getenv (key : string) : option string :=
  if String.eqb key "LLM_PROVIDER" then Some "Gemini"
  else if String.eqb key "GEMINI_API_KEY" then Some "k-123"
  else None.

(* ------------------------------------------------------------------ *)
(** * Properties *)

(** ** Strings and lists *)

Lemma append_nil_r (s : string) : (s ++ "")%string = s.
Proof. induction s as [|c s IH]; simpl; [reflexivity | now rewrite IH]. Qed.

Lemma append_assoc (a b c : string) :
  ((a ++ b) ++ c)%string = (a ++ (b ++ c))%string.
Proof. induction a as [|x a IH]; simpl; [reflexivity | now rewrite IH]. Qed.

Lemma length_list_ascii_of_string (s : string) :
  List.length (list_ascii_of_string s) = String.length s.
Proof. induction s as [|c s IH]; simpl; [reflexivity | now rewrite IH]. Qed.

Lemma length_string_of_list_ascii (l : list ascii) :
  String.length (string_of_list_ascii l) = List.length l.
Proof. induction l as [|c l IH]; simpl; [reflexivity | now rewrite IH]. Qed.

(** ** Computations that leave a part of the world alone *)

Section Preservation.
Variable R : World -> World -> Prop.
Hypothesis R_refl : forall w, R w w.
Hypothesis R_trans : forall a b c, R a b -> R b c -> R a c.

Lemma preserves_ret {A} (a : A) : preserves R (ret a).
Proof. intros w r w' H. inversion H. apply R_refl. Qed.

Lemma preserves_raise {A} (e : exn) : preserves R (@raise World A e).
Proof. intros w r w' H. inversion H. apply R_refl. Qed.

Lemma preserves_lift {A} (x : Result A) : preserves R (lift x).
Proof. intros w r w' H. inversion H. apply R_refl. Qed.

Lemma preserves_get : preserves R (@get World).
Proof. intros w r w' H. inversion H. apply R_refl. Qed.

Lemma preserves_modify (f : World -> World) :
  (forall w, R w (f w)) -> preserves R (modify f).
Proof. intros Hf w r w' H. inversion H. apply Hf. Qed.

Lemma preserves_bind {A B} (m : M World A) (k : A -> M World B) :
  preserves R m -> (forall a, preserves R (k a)) -> preserves R (bind m k).
Proof.
  intros Hm Hk w r w' H. unfold bind in H.
  destruct (m w) as [[a|e] w1] eqn:E.
  - eapply R_trans; [eapply Hm; exact E | eapply Hk; exact H].
  - inversion H; subst. eapply Hm; exact E.
Qed.

Lemma preserves_try_except {A} (m : M World A) (h : exn -> M World A) :
  preserves R m -> (forall e, preserves R (h e)) -> preserves R (try_except m h).
Proof.
  intros Hm Hh w r w' H. unfold try_except in H.
  destruct (m w) as [[a|e] w1] eqn:E.
  - inversion H; subst. eapply Hm; exact E.
  - eapply R_trans; [eapply Hm; exact E | eapply Hh; exact H].
Qed.

Lemma preserves_await (env : Env) :
  (forall w, R w (tick w)) -> preserves R (await env).
Proof.
  intros Ht w r w' H. unfold await in H.
  destruct (fault env (calls w)); inversion H; apply Ht.
Qed.
End Preservation.

Lemma same_db_refl w : same_db w w.
Proof. reflexivity. Qed.
Lemma same_db_trans a b c : same_db a b -> same_db b c -> same_db a c.
Proof. unfold same_db; congruence. Qed.
Lemma same_sleeps_refl w : same_sleeps w w.
Proof. reflexivity. Qed.
Lemma same_sleeps_trans a b c : same_sleeps a b -> same_sleeps b c -> same_sleeps a c.
Proof. unfold same_sleeps; congruence. Qed.
Lemma same_pending_refl w : same_pending w w.
Proof. reflexivity. Qed.
Lemma same_pending_trans a b c :
  same_pending a b -> same_pending b c -> same_pending a c.
Proof. unfold same_pending; congruence. Qed.

Ltac world_side :=
  solve [ intros; unfold same_db, same_sleeps, same_pending in *;
          simpl in *; congruence ].

(** Splits a goal [preserves R m] along the structure of [m]. *)
Ltac preserve_with known :=
  repeat first
    [ known
    | world_side
    | apply preserves_ret
    | apply preserves_raise
    | apply preserves_lift
    | apply preserves_get
    | apply preserves_await
    | apply preserves_modify
    | apply preserves_bind
    | apply preserves_try_except
    | match goal with
      | |- forall _, _ => intro
      | |- preserves _ (match ?x with _ => _ end) => destruct x
      end ].

Ltac preserve := preserve_with fail.

Lemma db_execute_same_db {A} env (q : Database -> A) :
  preserves same_db (db_execute env q).
Proof. unfold db_execute. preserve. Qed.

Lemma file_read_same_db env file : preserves same_db (file_read env file).
Proof. unfold file_read. preserve. Qed.

Lemma read_content_same_db env file name :
  preserves same_db (read_content env file name).
Proof. unfold read_content, file_read. preserve. Qed.

Lemma read_content_same_pending env file name :
  preserves same_pending (read_content env file name).
Proof. unfold read_content, file_read. preserve. Qed.

Lemma retrieve_context_same_db env sid q :
  preserves same_db (retrieve_context env sid q).
Proof.
  unfold retrieve_context, retrieve_chunks, aembed_query, db_execute. preserve.
Qed.

(* ------------------------------------------------------------------ *)
(** ** [parse_pdf] *)

Lemma extract_pages_text (pages : list (Result string)) (acc : string) :
  snd (extract_pages pages acc) = (acc ++ text_before_failure pages)%string.
Proof.
  revert acc. induction pages as [|page rest IH]; intro acc.
  - simpl. now rewrite append_nil_r.
  - destruct page as [extracted|e].
    + cbn [extract_pages text_before_failure]. unfold bind, lift.
      destruct (nonempty extracted) eqn:N.
      * unfold modify. rewrite IH. apply append_assoc.
      * unfold ret. rewrite IH.
        destruct extracted; [reflexivity | discriminate].
    + simpl. now rewrite append_nil_r.
Qed.

Lemma text_before_failure_prefix (pages : list (Result string)) :
  exists rest,
    extractable_text pages = (text_before_failure pages ++ rest)%string.
Proof.
  induction pages as [|[extracted|e] pages [rest IH]].
  - now exists "".
  - exists rest. simpl. rewrite IH. symmetry. apply append_assoc.
  - now exists (extractable_text pages).
Qed.

Lemma parse_pdf_pages (env : Env) (content : list byte)
  (pages : list (Result string)) :
  PdfReader env content = Ok pages ->
  parse_pdf env content = Ok (text_before_failure pages).
Proof.
  intro R. unfold parse_pdf, try_except, bind, lift, get, ret. rewrite R.
  pose proof (extract_pages_text pages "") as H. simpl in H.
  destruct (extract_pages pages "") as [[u|e] text]; simpl in *; now subst.
Qed.

Lemma parse_pdf_no_reader (env : Env) (content : list byte) (e : exn) :
  PdfReader env content = Raise e -> parse_pdf env content = Ok "".
Proof.
  intro R. unfold parse_pdf, try_except, bind, lift, get, ret. now rewrite R.
Qed.

(** C9. [parse_pdf] returns a string for every input and never raises: when
    the reader cannot be built the string is empty; otherwise it is the text
    of the pages before the first page whose extraction raises, which is a
    prefix of the text that can be extracted from the document. *)
Theorem parse_pdf_total (env : Env) (content : list byte) :
  exists text,
    parse_pdf env content = Ok text /\
    match PdfReader env content with
    | Raise _ => text = ""
    | Ok pages =>
        text = text_before_failure pages /\
        exists rest, extractable_text pages = (text ++ rest)%string
    end.
Proof.
  destruct (PdfReader env content) as [pages|e] eqn:R.
  - exists (text_before_failure pages). split; [now apply parse_pdf_pages|].
    split; [reflexivity | apply text_before_failure_prefix].
  - exists "". split; [now apply parse_pdf_no_reader with (e := e) | reflexivity].
Qed.

(** A document whose second page cannot be extracted comes back cut after
    the first page, with no error: the third page is lost. *)
Example parse_pdf_truncates :
  PdfReader (sample_env no_fault) [x25; x61; x0c; x00; x0c; x63]
  = Ok [Ok "a"; Raise (Error "PdfReadError" "bad content stream"); Ok "c"] /\
  parse_pdf (sample_env no_fault) [x25; x61; x0c; x00; x0c; x63] = Ok "a".
Proof. split; reflexivity. Qed.

(* ------------------------------------------------------------------ *)
(** ** Unsupported formats *)

(** C7. An upload whose file name ends neither in [.pdf] nor in [.txt]
    fails with the 400 error that carries the unsupported-format error (the
    handler of the first [try] block re-raises it under the "Error reading
    file" prefix), and the world is left as it was: nothing is read, nothing
    is added to the unit of work and no row is written. *)
Theorem unsupported_format_rejected (env : Env) (file : UploadFile)
  (session_id : string) (w : World) :
  endswith (lower (upload_filename file)) ".pdf" = false ->
  endswith (lower (upload_filename file)) ".txt" = false ->
  process_file env file session_id w
  = (Raise (error_reading_file unsupported_format), w) /\
  error_reading_file unsupported_format
  = HTTPException 400
      "Error reading file: 400: Unsupported file format. Only PDF and TXT are supported.".
Proof.
  intros Hpdf Htxt. split; [|reflexivity].
  unfold process_file, read_content, bind, try_except.
  rewrite Hpdf, Htxt. reflexivity.
Qed.

Lemma unsupported_format_rejected_witness :
  process_file (sample_env no_fault) (mkUploadFile (Some "report.docx") [x61])
    "s1" session_world
  = (Raise (error_reading_file unsupported_format), session_world) /\
  error_reading_file unsupported_format
  = HTTPException 400
      "Error reading file: 400: Unsupported file format. Only PDF and TXT are supported.".
Proof.
  apply (unsupported_format_rejected (sample_env no_fault)
           (mkUploadFile (Some "report.docx") [x61]) "s1" session_world);
    reflexivity.
Defined.

(* ------------------------------------------------------------------ *)
(** ** The chat turn never raises *)

Lemma try_except_ret_total {S A} (m : M S A) (x : A) (s : S) :
  exists a s', try_except m (fun _ => ret x) s = (Ok a, s').
Proof.
  unfold try_except, ret. destruct (m s) as [[a|e] s']; eauto.
Qed.

(** A text that leaves the retry loop is a completion of the provider,
    unless every attempt of the loop was allowed to retry. *)
Lemma llm_attempts_ok (env : Env) (messages : list ChatMessage)
  (max_retries : nat) (fallback : string) (attempts : list nat) :
  forall (retry_delay : nat) (w w' : World) (r : string),
    llm_attempts env messages max_retries attempts retry_delay fallback w
    = (Ok r, w') ->
    (exists k llm, fault env k = None /\ r = completion env k llm messages)
    \/ (r = fallback /\ Forall (fun a => a < max_retries - 1) attempts).
Proof.
  induction attempts as [|attempt rest IH]; intros retry_delay w w' r H.
  - inversion H. right. split; [reflexivity | constructor].
  - cbn [llm_attempts] in H. unfold bind, try_except, lift in H.
    destruct (get_llm env) as [llm|e0].
    + unfold ainvoke, await, bind, ret in H.
      destruct (fault env (calls w)) as [e|] eqn:F.
      * destruct (is_quota_error e && (attempt <? max_retries - 1)%nat) eqn:Q.
        -- unfold sleep, modify, ret in H. apply IH in H.
           destruct H as [H|[H1 H2]]; [now left | right].
           split; [exact H1 | constructor; [|exact H2]].
           apply andb_true_iff in Q. destruct Q as [_ Q].
           now apply Nat.ltb_lt in Q.
        -- discriminate.
      * inversion H; subst. left. eauto.
    + destruct (is_quota_error e0 && (attempt <? max_retries - 1)%nat) eqn:Q.
      * unfold sleep, modify, bind, ret in H. apply IH in H.
        destruct H as [H|[H1 H2]]; [now left | right].
        split; [exact H1 | constructor; [|exact H2]].
        apply andb_true_iff in Q. destruct Q as [_ Q].
        now apply Nat.ltb_lt in Q.
      * discriminate.
Qed.

Lemma generate_ok (env : Env) (messages : list ChatMessage) (w w' : World)
  (r : string) :
  generate env messages w = (Ok r, w') ->
  exists k llm, fault env k = None /\ r = completion env k llm messages.
Proof.
  intro H. apply llm_attempts_ok in H. destruct H as [H|[_ H]]; [exact H|].
  exfalso. simpl in H.
  inversion H as [|a l _ H1]; subst. inversion H1 as [|a l _ H2]; subst.
  inversion H2 as [|a l H3 _]; subst. lia.
Qed.

Lemma process_chat_body_ok (env : Env) (session_id user_query : string)
  (w w' : World) (r : string) :
  process_chat_body env session_id user_query w = (Ok r, w') ->
  exists k llm messages,
    fault env k = None /\ r = completion env k llm messages.
Proof.
  unfold process_chat_body. unfold bind at 1.
  destruct (prepare_turn env session_id user_query w)
    as [[[[summary context] history]|e] w1]; [|discriminate].
  unfold bind at 1.
  destruct (generate env (build_messages context summary history) w1)
    as [[text|e] w2] eqn:G; [|discriminate].
  intro H. apply generate_ok in G. destruct G as (k & llm & F & E).
  assert (r = text) as ->.
  { unfold bind, ret in H.
    destruct (save_message env session_id "assistant" text w2) as [[u|e] w3];
      [|discriminate].
    simpl in H. now inversion H. }
  eauto.
Qed.

(** C10. [process_chat] returns a string from every world and for every
    behaviour of the collaborators, whichever stage raises: the string is
    the fixed apology or a completion of the provider.  The [/chat] route
    therefore answers with that string and never takes its 500 branch. *)
Theorem process_chat_total (env : Env) (session_id user_query : string)
  (w : World) :
  exists reply w',
    process_chat env session_id user_query w = (Ok reply, w') /\
    (reply = internal_error_reply
     \/ exists k llm messages,
          fault env k = None /\ reply = completion env k llm messages) /\
    chat_endpoint env (mkChatRequest user_query session_id) w
    = (Ok (mkChatResponse reply session_id), w').
Proof.
  unfold chat_endpoint, process_chat. cbn [request_session_id request_query].
  unfold try_except at 1 3. unfold bind, try_except, ret.
  destruct (process_chat_body env session_id user_query w) as [[r|e] w1] eqn:B.
  - exists r, w1. repeat split. right. eapply process_chat_body_ok; exact B.
  - exists internal_error_reply, w1. repeat split. now left.
Qed.

(** A failure of the session lookup of stage 1 is absorbed. *)
Lemma stage1_failure_absorbed (env : Env) (session_id user_query : string)
  (w : World) (e : exn) :
  fault env (calls w) = Some e ->
  process_chat env session_id user_query w = (Ok internal_error_reply, tick w).
Proof.
  intro F.
  cbv [process_chat process_chat_body prepare_turn ensure_session db_execute
       await try_except bind ret].
  now rewrite F.
Qed.

(** A failure of the commit of the user message in stage 2 is absorbed; the
    message stays in the unit of work and does not reach the store. *)
Lemma stage2_failure_absorbed (env : Env) (session_id user_query : string)
  (w : World) (s : Session) (e : exn) :
  fault env (calls w) = None ->
  find_session session_id (db w) = Some s ->
  fault env (S (calls w)) = Some e ->
  exists w',
    process_chat env session_id user_query w = (Ok internal_error_reply, w') /\
    db w' = db w /\
    pending w' = pending w ++ [NewMessage session_id "user" user_query].
Proof.
  intros F0 S0 F1.
  cbv [process_chat process_chat_body prepare_turn ensure_session save_message
       db_execute db_add db_commit await try_except bind get modify ret].
  rewrite F0. cbn [db tick calls pending set_pending]. rewrite S0.
  cbn [db tick calls pending set_pending]. rewrite F1.
  eexists. split; [reflexivity|]. split; reflexivity.
Qed.

(* ------------------------------------------------------------------ *)
(** ** Rate limits *)

Lemma db_commit_same_sleeps env : preserves same_sleeps (db_commit env).
Proof.
  unfold db_commit. apply preserves_bind; [world_side | preserve |].
  intros _ w r w' H.
  destruct (flush (now w) (pending w) (db w) (serials w)) as [[[d ids]|] n];
    inversion H; reflexivity.
Qed.

Lemma prepare_turn_same_sleeps env sid q :
  preserves same_sleeps (prepare_turn env sid q).
Proof.
  pose proof (db_commit_same_sleeps env) as C.
  unfold prepare_turn, ensure_session, save_message, retrieve_context,
    retrieve_chunks, read_history, aembed_query, db_execute, db_add.
  preserve_with ltac:(exact C).
Qed.

(** One iteration of the loop whose call is refused for quota, with
    attempts left: sleep, double the delay, go on. *)
Lemma llm_attempts_retry (env : Env) (messages : list ChatMessage)
  (max_retries attempt : nat) (rest : list nat) (retry_delay : nat)
  (fallback : string) (w : World) (llm : LLM) (e : exn) :
  get_llm env = Ok llm ->
  fault env (calls w) = Some e ->
  is_quota_error e = true ->
  (attempt <? max_retries - 1)%nat = true ->
  llm_attempts env messages max_retries (attempt :: rest) retry_delay fallback w
  = llm_attempts env messages max_retries rest (retry_delay * 2) fallback
      (add_sleep retry_delay (tick w)).
Proof.
  intros L F Q A. cbn [llm_attempts].
  cbv [bind try_except lift ainvoke await ret sleep modify raise].
  rewrite L. cbv beta iota. rewrite F. cbv beta iota. rewrite Q, A.
  reflexivity.
Qed.

(** One iteration whose call fails with no attempt left: the error leaves
    the loop. *)
Lemma llm_attempts_last (env : Env) (messages : list ChatMessage)
  (max_retries attempt : nat) (rest : list nat) (retry_delay : nat)
  (fallback : string) (w : World) (llm : LLM) (e : exn) :
  get_llm env = Ok llm ->
  fault env (calls w) = Some e ->
  (attempt <? max_retries - 1)%nat = false ->
  llm_attempts env messages max_retries (attempt :: rest) retry_delay fallback w
  = (Raise e, tick w).
Proof.
  intros L F A. cbn [llm_attempts].
  cbv [bind try_except lift ainvoke await ret sleep modify raise].
  rewrite L. cbv beta iota. rewrite F. cbv beta iota. rewrite A.
  rewrite andb_false_r. reflexivity.
Qed.

(** Three rate-limit errors in a row: the loop sleeps 5 s, then 10 s, and
    the third error leaves it. *)
Lemma generate_exhausted (env : Env) (messages : list ChatMessage) (w : World)
  (llm : LLM) (e0 e1 e2 : exn) :
  get_llm env = Ok llm ->
  fault env (calls w) = Some e0 -> is_quota_error e0 = true ->
  fault env (S (calls w)) = Some e1 -> is_quota_error e1 = true ->
  fault env (S (S (calls w))) = Some e2 ->
  generate env messages w
  = (Raise e2, tick (add_sleep 10 (tick (add_sleep 5 (tick w))))).
Proof.
  intros L F0 Q0 F1 Q1 F2.
  unfold generate. cbn [seq].
  erewrite llm_attempts_retry; [ | exact L | exact F0 | exact Q0 | reflexivity ].
  erewrite llm_attempts_retry; [ | exact L | exact F1 | exact Q1 | reflexivity ].
  eapply llm_attempts_last; [ exact L | exact F2 | reflexivity ].
Qed.

(** Two rate-limit errors and then an answer: two sleeps, of 5 s and of
    10 s, and the answer is returned. *)
Lemma generate_recovers (env : Env) (messages : list ChatMessage) (w : World)
  (llm : LLM) (e0 e1 : exn) :
  get_llm env = Ok llm ->
  fault env (calls w) = Some e0 -> is_quota_error e0 = true ->
  fault env (S (calls w)) = Some e1 -> is_quota_error e1 = true ->
  fault env (S (S (calls w))) = None ->
  generate env messages w
  = (Ok (completion env (S (S (calls w))) llm messages),
     tick (add_sleep 10 (tick (add_sleep 5 (tick w))))).
Proof.
  intros L F0 Q0 F1 Q1 F2.
  unfold generate. cbn [seq].
  erewrite llm_attempts_retry; [ | exact L | exact F0 | exact Q0 | reflexivity ].
  erewrite llm_attempts_retry; [ | exact L | exact F1 | exact Q1 | reflexivity ].
  cbn [llm_attempts].
  cbv [bind try_except lift ainvoke await ret sleep modify raise].
  rewrite L. cbn [calls tick add_sleep]. rewrite F2. reflexivity.
Qed.

(** C1, as the code has it.  In a turn that reaches the provider, three
    rate-limit errors in a row make the turn sleep 5 s and then 10 s; the
    third error leaves the retry loop and is absorbed by the handler of
    [process_chat], so the caller receives the fixed internal-error apology
    and no exception.  No assistant message is stored and no consolidation
    is scheduled. *)
Theorem rate_limit_exhaustion (env : Env) (session_id user_query : string)
  (w w1 : World) (prepared : string * string * list Message) (llm : LLM)
  (e0 e1 e2 : exn) :
  prepare_turn env session_id user_query w = (Ok prepared, w1) ->
  get_llm env = Ok llm ->
  fault env (calls w1) = Some e0 -> is_quota_error e0 = true ->
  fault env (S (calls w1)) = Some e1 -> is_quota_error e1 = true ->
  fault env (S (S (calls w1))) = Some e2 -> is_quota_error e2 = true ->
  exists w',
    process_chat env session_id user_query w = (Ok internal_error_reply, w') /\
    sleeps w' = sleeps w ++ [5; 10] /\
    db w' = db w1 /\
    tasks w' = tasks w1.
Proof.
  intros P L F0 Q0 F1 Q1 F2 _.
  pose proof (@prepare_turn_same_sleeps env session_id user_query _ _ _ P) as S1.
  unfold same_sleeps in S1.
  unfold process_chat, try_except, process_chat_body. unfold bind at 1.
  rewrite P. destruct prepared as [[summary context] history].
  unfold bind at 1.
  erewrite generate_exhausted; [ | exact L | exact F0 | exact Q0 | exact F1
                                 | exact Q1 | exact F2 ].
  eexists. split; [reflexivity|]. simpl. rewrite S1.
  rewrite <- app_assoc. repeat split.
Qed.

Lemma rate_limit_exhaustion_witness :
  exists w',
    process_chat (sample_env (quota_from 6)) "s1" "hi" empty_world
    = (Ok internal_error_reply, w') /\
    sleeps w' = sleeps empty_world ++ [5; 10] /\
    db w' = db (snd quota_turn) /\
    tasks w' = tasks (snd quota_turn).
Proof.
  apply (@rate_limit_exhaustion (sample_env (quota_from 6)) "s1" "hi"
           empty_world (snd quota_turn) ("", "No relevant documents found.",
             [mkMessage 1 "s1" "user" "hi" 1])
           (mkLLM "gemini" "gemini-2.0-flash" 7)
           quota_error quota_error quota_error);
    reflexivity.
Defined.

(** C1, as stated, fails: with the provider out of quota at each of the
    three attempts of a turn, the caller receives the internal-error
    apology, which is not the "currently overloaded" message. *)
Lemma overloaded_reply_not_returned :
  let env := sample_env (quota_from 6) in
  calls (snd (prepare_turn env "s1" "hi" empty_world)) = 6 /\
  fault env 6 = Some quota_error /\
  fault env 7 = Some quota_error /\
  fault env 8 = Some quota_error /\
  is_quota_error quota_error = true /\
  sleeps (snd (process_chat env "s1" "hi" empty_world)) = [5; 10] /\
  fst (process_chat env "s1" "hi" empty_world) = Ok internal_error_reply /\
  fst (process_chat env "s1" "hi" empty_world) <> Ok overloaded_reply.
Proof.
  cbv zeta. repeat split; try reflexivity.
  vm_compute. discriminate.
Qed.

(* ------------------------------------------------------------------ *)
(** ** Splitting *)

Lemma sliding_window_step {A} (fuel size step : nat) (text : list A) :
  size < List.length text ->
  sliding_window (S fuel) size step text
  = firstn size text :: sliding_window fuel size step (skipn step text).
Proof.
  intro H. cbn [sliding_window].
  destruct text as [|x text]; [simpl in H; lia|].
  apply Nat.leb_gt in H. now rewrite H.
Qed.

Lemma sliding_window_final {A} (fuel size step : nat) (text : list A) :
  0 < List.length text -> List.length text <= size ->
  sliding_window (S fuel) size step text = [text].
Proof.
  intros H0 H. cbn [sliding_window].
  destruct text as [|x text]; [simpl in H0; lia|].
  apply Nat.leb_le in H. now rewrite H.
Qed.

(** The three windows of a text of 2000 characters. *)
Lemma sliding_window_2000 {A} (text : list A) :
  List.length text = 2000 ->
  sliding_window 2000 800 700 text
  = [firstn 800 text; firstn 800 (skipn 700 text); skipn 1400 text].
Proof.
  intro H.
  change 2000 with (S (S (S 1997))).
  rewrite sliding_window_step by lia.
  rewrite sliding_window_step by (rewrite length_skipn; lia).
  rewrite sliding_window_final;
    rewrite ?skipn_skipn, ?length_skipn; try lia.
  reflexivity.
Qed.

(** C3.  With the sliding-window splitter of the design document, a text of
    2000 characters split with size 800 and overlap 100 gives exactly three
    chunks, the windows at offsets 0, 700 and 1400; each has at most 800
    characters, and the first 100 characters of the second and of the third
    are the last 100 characters of the chunk before. *)
Theorem split_text_2000 (content : string) :
  String.length content = 2000 ->
  exists a b c,
    split_text 800 100 content = [a; b; c] /\
    list_ascii_of_string a = firstn 800 (list_ascii_of_string content) /\
    list_ascii_of_string b = firstn 800 (skipn 700 (list_ascii_of_string content)) /\
    list_ascii_of_string c = skipn 1400 (list_ascii_of_string content) /\
    String.length a <= 800 /\ String.length b <= 800 /\ String.length c <= 800 /\
    firstn 100 (list_ascii_of_string b)
    = skipn (String.length a - 100) (list_ascii_of_string a) /\
    firstn 100 (list_ascii_of_string c)
    = skipn (String.length b - 100) (list_ascii_of_string b).
Proof.
  intro H.
  pose proof (length_list_ascii_of_string content) as L. rewrite H in L.
  set (text := list_ascii_of_string content) in *.
  exists (string_of_list_ascii (firstn 800 text)),
         (string_of_list_ascii (firstn 800 (skipn 700 text))),
         (string_of_list_ascii (skipn 1400 text)).
  unfold split_text. rewrite H. change (800 - 100) with 700. fold text.
  rewrite (sliding_window_2000 _ L).
  rewrite !list_ascii_of_string_of_list_ascii, !length_string_of_list_ascii.
  rewrite !length_firstn, !length_skipn, L.
  replace (Nat.min 800 2000) with 800 by lia.
  replace (Nat.min 800 (2000 - 700)) with 800 by lia.
  replace (800 - 100) with 700 by lia.
  repeat split; try lia.
  - rewrite firstn_firstn. replace (Nat.min 100 800) with 100 by lia.
    apply (firstn_skipn_comm 100 700 text).
  - change 1400 with (700 + 700). rewrite <- (skipn_skipn 700 700 text).
    apply (firstn_skipn_comm 100 700 (skipn 700 text)).
Qed.

Lemma split_text_2000_witness :
  exists a b c,
    split_text 800 100 (string_of_list_ascii (repeat "a"%char 2000)) = [a; b; c] /\
    list_ascii_of_string a = firstn 800 (repeat "a"%char 2000) /\
    list_ascii_of_string b = firstn 800 (skipn 700 (repeat "a"%char 2000)) /\
    list_ascii_of_string c = skipn 1400 (repeat "a"%char 2000) /\
    String.length a <= 800 /\ String.length b <= 800 /\ String.length c <= 800 /\
    firstn 100 (list_ascii_of_string b)
    = skipn (String.length a - 100) (list_ascii_of_string a) /\
    firstn 100 (list_ascii_of_string c)
    = skipn (String.length b - 100) (list_ascii_of_string b).
Proof.
  rewrite <- (list_ascii_of_string_of_list_ascii (repeat "a"%char 2000)).
  apply (split_text_2000 (string_of_list_ascii (repeat "a"%char 2000))).
  vm_compute. reflexivity.
Defined.

(* ------------------------------------------------------------------ *)
(** ** ORDER BY and LIMIT *)

Section Sorting.
Variable A : Type.
Variable leb : A -> A -> bool.
Hypothesis leb_total : forall a b, leb a b = true \/ leb b a = true.
Hypothesis leb_trans : forall a b c, leb a b = true -> leb b c = true -> leb a c = true.

Lemma insert_by_perm (x : A) (l : list A) :
  Permutation (x :: l) (insert_by leb x l).
Proof.
  induction l as [|y l IH]; simpl; [reflexivity|].
  destruct (leb x y); [reflexivity|].
  rewrite perm_swap. now apply perm_skip.
Qed.

Lemma sort_by_perm (l : list A) : Permutation l (sort_by leb l).
Proof.
  induction l as [|x l IH]; simpl; [reflexivity|].
  rewrite <- insert_by_perm. now apply perm_skip.
Qed.

Lemma insert_by_sorted (x : A) (l : list A) :
  StronglySorted (fun a b => leb a b = true) l ->
  StronglySorted (fun a b => leb a b = true) (insert_by leb x l).
Proof.
  induction 1 as [|y l Hs IH Hy]; simpl.
  - repeat constructor.
  - destruct (leb x y) eqn:E.
    + constructor; [now constructor|].
      constructor; [exact E|].
      rewrite Forall_forall in *. intros z Hz. eapply leb_trans; eauto.
    + constructor; [exact IH|].
      rewrite Forall_forall in *. intros z Hz.
      apply (Permutation_in _ (Permutation_sym (insert_by_perm x l))) in Hz.
      destruct Hz as [<-|Hz]; [|now apply Hy].
      destruct (leb_total x y) as [T|T]; congruence.
Qed.

Lemma sort_by_sorted (l : list A) :
  StronglySorted (fun a b => leb a b = true) (sort_by leb l).
Proof.
  induction l as [|x l IH]; simpl; [constructor | now apply insert_by_sorted].
Qed.
End Sorting.

Lemma sort_by_nil_iff {A} (leb : A -> A -> bool) (l : list A) :
  sort_by leb l = [] <-> l = [].
Proof.
  split; intro H; [|now subst].
  pose proof (sort_by_perm leb l) as P. rewrite H in P.
  apply Permutation_sym in P. now apply Permutation_nil in P.
Qed.

Lemma StronglySorted_app_l {A} (R : A -> A -> Prop) (l1 l2 : list A) :
  StronglySorted R (l1 ++ l2) -> StronglySorted R l1.
Proof.
  induction l1 as [|x l1 IH]; simpl; intro H; [constructor|].
  inversion H as [|? ? Hs Hf]; subst. constructor; [now apply IH|].
  rewrite Forall_app in Hf. tauto.
Qed.

Lemma StronglySorted_impl {A} (R R' : A -> A -> Prop) (l : list A) :
  (forall a b, R a b -> R' a b) -> StronglySorted R l -> StronglySorted R' l.
Proof.
  intros HR. induction 1 as [|x l Hs IH Hf]; constructor; [exact IH|].
  eapply Forall_impl; [|exact Hf]. intros; now apply HR.
Qed.

Lemma closer_sorted (q : vector) (l : list DocumentChunk) :
  StronglySorted (nearer_eq q) (sort_by (closer q) l).
Proof.
  apply StronglySorted_impl with (R := fun a b => closer q a b = true).
  - intros a b H. unfold closer in H. now apply Z.leb_le in H.
  - apply sort_by_sorted; unfold closer; intros.
    + rewrite !Z.leb_le. lia.
    + rewrite Z.leb_le in *. lia.
Qed.

Lemma newer_sorted (l : list Message) :
  StronglySorted newer_eq (sort_by newer l).
Proof.
  apply StronglySorted_impl with (R := fun a b => newer a b = true).
  - intros a b H. unfold newer in H. now apply Nat.leb_le in H.
  - apply sort_by_sorted; unfold newer; intros.
    + rewrite !Nat.leb_le. lia.
    + rewrite Nat.leb_le in *. lia.
Qed.

(* ------------------------------------------------------------------ *)
(** ** Retrieval *)

Lemma session_chunks_In (d : Database) (session_id : string) (c : DocumentChunk) :
  In c (session_chunks d session_id) <->
  In c (document_chunks d) /\
  exists doc, In doc (documents d) /\
              doc_id doc = chunk_document_id c /\
              doc_session_id doc = session_id.
Proof.
  unfold session_chunks. rewrite in_flat_map. split.
  - intros (c' & Hc' & Hin). apply in_map_iff in Hin.
    destruct Hin as (doc & <- & Hdoc). apply filter_In in Hdoc.
    destruct Hdoc as [Hdoc Hb]. apply andb_true_iff in Hb. destruct Hb as [H1 H2].
    apply Nat.eqb_eq in H1. apply String.eqb_eq in H2.
    split; [exact Hc'|]. exists doc. auto.
  - intros (Hc & doc & Hdoc & H1 & H2). exists c. split; [exact Hc|].
    apply in_map_iff. exists doc. split; [reflexivity|].
    apply filter_In. split; [exact Hdoc|].
    apply andb_true_iff. split; [now apply Nat.eqb_eq | now apply String.eqb_eq].
Qed.

Lemma In_firstn {A} (n : nat) (l : list A) (x : A) :
  In x (firstn n l) -> In x l.
Proof.
  intro H. rewrite <- (firstn_skipn n l). apply in_or_app. now left.
Qed.

Lemma StronglySorted_app_cross {A} (R : A -> A -> Prop) (l1 l2 : list A)
  (x y : A) :
  StronglySorted R (l1 ++ l2) -> In x l1 -> In y l2 -> R x y.
Proof.
  induction l1 as [|a l1 IH]; simpl; intros H Hx Hy; [contradiction|].
  inversion H as [|? ? Hs Hf]; subst. destruct Hx as [->|Hx].
  - rewrite Forall_forall in Hf. apply Hf. apply in_or_app. now right.
  - now apply IH.
Qed.

(** The first [n] elements of a sorted list: an element of the list that is
    not among them comes after [n] elements that are all before it. *)
Lemma firstn_window {A} (R : A -> A -> Prop) (n : nat) (l : list A) (x : A) :
  StronglySorted R l -> In x l ->
  In x (firstn n l) \/
  (List.length (firstn n l) = n /\ forall y, In y (firstn n l) -> R y x).
Proof.
  intros Hs Hx.
  assert (In x (firstn n l ++ skipn n l)) as Hx' by now rewrite firstn_skipn.
  apply in_app_or in Hx'. destruct Hx' as [Hx'|Hx']; [now left|right].
  split.
  - rewrite length_firstn. apply Nat.min_l.
    destruct (Nat.le_gt_cases n (List.length l)) as [L|L]; [exact L|].
    rewrite skipn_all2 in Hx' by lia. contradiction.
  - intros y Hy.
    eapply StronglySorted_app_cross; [rewrite firstn_skipn; exact Hs | exact Hy | exact Hx'].
Qed.

Lemma unique_document (docs : list Document) (a b : Document) :
  NoDup (map doc_id docs) -> In a docs -> In b docs -> doc_id a = doc_id b ->
  a = b.
Proof.
  induction docs as [|x docs IH]; simpl; [tauto|].
  intros N Ha Hb E. inversion N as [|? ? Hx N']; subst.
  destruct Ha as [->|Ha], Hb as [->|Hb]; auto.
  - exfalso. apply Hx. rewrite E. now apply in_map.
  - exfalso. apply Hx. rewrite <- E. now apply in_map.
Qed.

(** C4. The vector search of a turn returns at most 3 chunks, in ascending
    order of their distance to the embedding of the query; they are the
    nearest ones among the chunks of the session; every one of them is a
    stored chunk that joins a Document of the given session, and, document
    keys being unique, a chunk whose Document belongs to another session is
    never returned.  Nothing is left out without cause: the search returns 3
    chunks when the session has 3 or more and all of them otherwise, and a
    stored chunk of a Document of the session that is not returned is at
    least as far from the query as each of the 3 that are. *)
Theorem retrieval_top3_isolated (env : Env) (session_id user_query : string)
  (w w' : World) (chunks : list DocumentChunk) :
  retrieve_chunks env session_id user_query w = (Ok chunks, w') ->
  List.length chunks <= 3 /\
  StronglySorted (nearer_eq (query_embedding env user_query)) chunks /\
  (exists rest,
     Permutation (session_chunks (db w) session_id) (chunks ++ rest) /\
     StronglySorted (nearer_eq (query_embedding env user_query)) (chunks ++ rest)) /\
  (forall c, In c chunks ->
     In c (document_chunks (db w)) /\
     exists doc, In doc (documents (db w)) /\
                 doc_id doc = chunk_document_id c /\
                 doc_session_id doc = session_id) /\
  (NoDup (map doc_id (documents (db w))) ->
   forall c doc, In c chunks -> In doc (documents (db w)) ->
     doc_id doc = chunk_document_id c -> doc_session_id doc = session_id) /\
  List.length chunks
  = Nat.min 3 (List.length (session_chunks (db w) session_id)) /\
  (forall c doc,
     In c (document_chunks (db w)) -> In doc (documents (db w)) ->
     doc_id doc = chunk_document_id c -> doc_session_id doc = session_id ->
     In c chunks \/
     (List.length chunks = 3 /\
      forall x, In x chunks -> nearer_eq (query_embedding env user_query) x c)).
Proof.
  intro H.
  assert (chunks = top_chunks session_id (query_embedding env user_query) (db w)) as E.
  { cbv [retrieve_chunks aembed_query db_execute await bind lift get ret] in H.
    destruct (get_embeddings_service env); [|discriminate].
    destruct (fault env (calls w)); [discriminate|]. cbn in H.
    destruct (fault env (S (calls w))); [discriminate|].
    now inversion H. }
  set (q := query_embedding env user_query) in *.
  set (sorted := sort_by (closer q) (session_chunks (db w) session_id)).
  assert (chunks = firstn 3 sorted) as E' by exact E.
  assert (forall c, In c chunks ->
     In c (document_chunks (db w)) /\
     exists doc, In doc (documents (db w)) /\
                 doc_id doc = chunk_document_id c /\
                 doc_session_id doc = session_id) as Hjoin.
  { intros c Hc. apply session_chunks_In. rewrite E' in Hc. apply In_firstn in Hc.
    eapply Permutation_in; [apply Permutation_sym, sort_by_perm | exact Hc]. }
  assert (StronglySorted (nearer_eq q) (chunks ++ skipn 3 sorted)) as Hs.
  { rewrite E', firstn_skipn. apply closer_sorted. }
  split; [|split; [|split; [|split; [|split; [|split]]]]].
  - rewrite E', length_firstn. lia.
  - eapply StronglySorted_app_l; exact Hs.
  - exists (skipn 3 sorted). split; [|exact Hs].
    rewrite E', firstn_skipn. apply sort_by_perm.
  - exact Hjoin.
  - intros N c doc Hc Hdoc Hid.
    destruct (Hjoin c Hc) as (_ & doc' & Hdoc' & Hid' & Hs').
    rewrite <- Hs'. f_equal.
    eapply unique_document; eauto. congruence.
  - rewrite E', length_firstn. unfold sorted.
    now rewrite <- (Permutation_length (sort_by_perm (closer q) _)).
  - intros c doc Hc Hdoc Hid Hsid.
    assert (In c sorted) as Hin.
    { eapply Permutation_in; [apply sort_by_perm|].
      apply session_chunks_In. split; [exact Hc|]. exists doc. auto. }
    rewrite E'. apply firstn_window; [apply closer_sorted | exact Hin].
Qed.

Lemma retrieval_top3_isolated_witness :
  let chunks := [mkDocumentChunk 11 1 "alpha one" [1%Z; 2%Z];
                 mkDocumentChunk 15 1 "alpha four" [1%Z; 3%Z];
                 mkDocumentChunk 14 1 "alpha three" [0%Z; 0%Z]] in
  let q := query_embedding (sample_env no_fault) "which alpha?" in
  List.length chunks <= 3 /\
  StronglySorted (nearer_eq q) chunks /\
  (exists rest,
     Permutation (session_chunks (db library_world) "s1") (chunks ++ rest) /\
     StronglySorted (nearer_eq q) (chunks ++ rest)) /\
  (forall c, In c chunks ->
     In c (document_chunks (db library_world)) /\
     exists doc, In doc (documents (db library_world)) /\
                 doc_id doc = chunk_document_id c /\
                 doc_session_id doc = "s1") /\
  (NoDup (map doc_id (documents (db library_world))) ->
   forall c doc, In c chunks -> In doc (documents (db library_world)) ->
     doc_id doc = chunk_document_id c -> doc_session_id doc = "s1") /\
  List.length chunks
  = Nat.min 3 (List.length (session_chunks (db library_world) "s1")) /\
  (forall c doc,
     In c (document_chunks (db library_world)) ->
     In doc (documents (db library_world)) ->
     doc_id doc = chunk_document_id c -> doc_session_id doc = "s1" ->
     In c chunks \/
     (List.length chunks = 3 /\ forall x, In x chunks -> nearer_eq q x c)).
Proof.
  apply (@retrieval_top3_isolated (sample_env no_fault) "s1" "which alpha?"
           library_world (tick (tick library_world))).
  reflexivity.
Defined.

(* ------------------------------------------------------------------ *)
(** ** Consolidation *)

Lemma last_messages_nil_iff (n : nat) (session_id : string) (d : Database) :
  rev (last_messages (S n) session_id d) = [] <-> session_messages d session_id = [].
Proof.
  unfold last_messages. split; intro H.
  - apply (f_equal (@rev Message)) in H. rewrite rev_involutive in H. simpl in H.
    destruct (sort_by newer (session_messages d session_id)) eqn:E; [|discriminate].
    now apply sort_by_nil_iff in E.
  - rewrite H. reflexivity.
Qed.

(** What a run of the body does to the store: either nothing, and then it
    returned only if the session has no message, or it returned after
    writing a summary for a session that has messages. *)
Lemma update_summary_body_spec (env : Env) (session_id : string) (w w' : World)
  (r : Result unit) :
  update_summary_body env session_id w = (r, w') ->
  (db w' = db w /\ (r = Ok tt -> session_messages (db w) session_id = []))
  \/ (r = Ok tt /\ session_messages (db w) session_id <> [] /\
      exists new_summary,
        db w' = update_session_summary session_id new_summary (db w)).
Proof.
  intro H.
  cbv [update_summary_body db_execute ainvoke await bind lift get ret modify] in H.
  destruct (fault env (calls w));
    [inversion H; left; split; [reflexivity | discriminate]|].
  cbn [db tick calls] in H.
  destruct (rev (last_messages 10 session_id (db w))) as [|m recent] eqn:R.
  { inversion H; subst. left. split; [reflexivity|]. intros _.
    exact (proj1 (@last_messages_nil_iff 9 session_id (db w)) R). }
  assert (session_messages (db w) session_id <> []) as NE.
  { intro E. apply (proj2 (@last_messages_nil_iff 9 session_id (db w))) in E.
    congruence. }
  cbn [db tick calls] in H.
  destruct (fault env (S (calls w)));
    [inversion H; left; split; [reflexivity | discriminate]|].
  destruct (get_llm env) as [llm|e];
    [|inversion H; left; split; [reflexivity | discriminate]].
  cbn [db tick calls] in H.
  destruct (fault env (S (S (calls w))));
    [inversion H; left; split; [reflexivity | discriminate]|].
  cbn [db tick calls] in H.
  destruct (fault env (S (S (S (calls w)))));
    [inversion H; left; split; [reflexivity | discriminate]|].
  cbn [db tick calls] in H.
  destruct (fault env (S (S (S (S (calls w))))));
    [inversion H; left; split; [reflexivity | discriminate]|].
  inversion H; subst. right. split; [reflexivity|]. split; [exact NE|].
  eexists. reflexivity.
Qed.

(** C5. A consolidation run never raises.  It leaves the store as it was
    when the session has no message and when any of its steps fails; the
    summary is written only by a run whose every step succeeded, on a
    session that has at least one message. *)
Theorem update_summary_safe (env : Env) (session_id : string) (w : World) :
  exists w',
    update_summary env session_id w = (Ok tt, w') /\
    (session_messages (db w) session_id = [] -> db w' = db w) /\
    (forall e w1, update_summary_body env session_id w = (Raise e, w1) ->
                  db w' = db w) /\
    (db w' = db w
     \/ (session_messages (db w) session_id <> [] /\
         update_summary_body env session_id w = (Ok tt, w') /\
         exists new_summary,
           db w' = update_session_summary session_id new_summary (db w))).
Proof.
  unfold update_summary, try_except, ret.
  destruct (update_summary_body env session_id w) as [[[]|e] w1] eqn:B;
    exists w1; (split; [reflexivity|]);
    destruct (update_summary_body_spec _ _ _ B) as [[D N]|(R & NE & s & D)].
  - split; [auto | split; [intros; discriminate | now left]].
  - split; [intro E; contradiction | split; [intros; discriminate |]].
    right. split; [exact NE | split; [reflexivity | eauto]].
  - split; [auto | split; [auto | now left]].
  - discriminate.
Qed.

Lemma update_summary_safe_witness :
  exists w',
    update_summary (sample_env no_fault) "s1" library_world = (Ok tt, w') /\
    (session_messages (db library_world) "s1" = [] -> db w' = db library_world) /\
    (forall e w1,
       update_summary_body (sample_env no_fault) "s1" library_world = (Raise e, w1) ->
       db w' = db library_world) /\
    (db w' = db library_world
     \/ (session_messages (db library_world) "s1" <> [] /\
         update_summary_body (sample_env no_fault) "s1" library_world = (Ok tt, w') /\
         exists new_summary,
           db w' = update_session_summary "s1" new_summary (db library_world))).
Proof. apply (update_summary_safe (sample_env no_fault) "s1" library_world). Defined.

(* ------------------------------------------------------------------ *)
(** ** The history window *)

(** A message newer than every message of [l] comes first in the
    descending order. *)
Lemma sort_by_newer_last (l : list Message) (m : Message) :
  (forall x, In x l -> msg_created_at x < msg_created_at m) ->
  sort_by newer (l ++ [m]) = m :: sort_by newer l.
Proof.
  induction l as [|x l IH]; intro H; [reflexivity|].
  simpl. rewrite IH by (intros y Hy; apply H; now right).
  simpl. unfold newer at 1.
  assert (msg_created_at x < msg_created_at m) as Hx by (apply H; now left).
  apply Nat.leb_gt in Hx. now rewrite Hx.
Qed.

Lemma StronglySorted_snoc {A} (R : A -> A -> Prop) (l : list A) (x : A) :
  StronglySorted R l -> Forall (fun y => R y x) l -> StronglySorted R (l ++ [x]).
Proof.
  induction 1 as [|y l Hs IH Hy]; intro F; simpl.
  - repeat constructor.
  - inversion F as [|? ? Fy Fl]; subst. constructor; [now apply IH|].
    apply Forall_app. split; [exact Hy | now constructor].
Qed.

Lemma StronglySorted_rev {A} (R : A -> A -> Prop) (l : list A) :
  StronglySorted R l -> StronglySorted (fun a b => R b a) (rev l).
Proof.
  induction 1 as [|x l Hs IH Hx]; simpl; [constructor|].
  apply StronglySorted_snoc; [exact IH|].
  apply Forall_rev. exact Hx.
Qed.

Lemma last_messages_sorted (n : nat) (session_id : string) (d : Database) :
  StronglySorted newer_eq (last_messages n session_id d).
Proof.
  unfold last_messages.
  apply StronglySorted_app_l
    with (l2 := skipn n (sort_by newer (session_messages d session_id))).
  rewrite firstn_skipn. apply newer_sorted.
Qed.

(** The rows of the history query are stored messages of the session. *)
Lemma last_messages_In (n : nat) (session_id : string) (d : Database) (m : Message) :
  In m (rev (last_messages n session_id d)) ->
  In m (messages d) /\ msg_session_id m = session_id.
Proof.
  intro Hm. apply in_rev in Hm. unfold last_messages in Hm.
  apply In_firstn in Hm.
  apply (Permutation_in _ (Permutation_sym (sort_by_perm newer _))) in Hm.
  apply filter_In in Hm. destruct Hm as [Hm E]. apply String.eqb_eq in E. auto.
Qed.

(** Reduction of the accessors of the world along a run. *)
Ltac world_step :=
  cbn [pending set_pending tick db now next_id next_document_id next_chunk_id
       serials set_serials message_serial document_serial chunk_serial calls].
Ltac world_step_in H :=
  cbn [pending set_pending tick db now next_id next_document_id next_chunk_id
       serials set_serials message_serial document_serial chunk_serial calls] in H.
Ltac commit_step :=
  cbn [app last committed pending set_pending tick db now next_id
       next_document_id next_chunk_id serials set_serials message_serial
       document_serial chunk_serial calls documents].

(** A successful [save_message] from an empty unit of work appends one
    row, stamped with the server time. *)
Lemma save_message_ok (env : Env) (session_id role content : string)
  (w w' : World) :
  pending w = [] ->
  save_message env session_id role content w = (Ok tt, w') ->
  messages (db w')
  = messages (db w) ++ [mkMessage (next_id w) session_id role content (now w)].
Proof.
  intros P H.
  cbv [save_message db_add db_commit await bind modify ret] in H.
  world_step_in H.
  destruct (fault env (calls w)); [discriminate|].
  world_step_in H. rewrite P in H.
  cbn [app flush insert_row] in H.
  destruct (has_session (db w) session_id); [|discriminate].
  cbn in H. inversion H. reflexivity.
Qed.

(** A successful [ensure_session] from an empty unit of work adds no
    message, leaves the unit of work empty and does not turn the clock
    back. *)
Lemma ensure_session_ok (env : Env) (session_id : string) (w w' : World)
  (summary : string) :
  pending w = [] ->
  ensure_session env session_id w = (Ok summary, w') ->
  pending w' = [] /\ messages (db w') = messages (db w) /\ now w <= now w'.
Proof.
  intros P H.
  cbv [ensure_session db_execute db_add db_commit await bind modify get ret] in H.
  destruct (fault env (calls w)); [discriminate|].
  cbn [db tick calls] in H.
  destruct (find_session session_id (db w)) as [s|].
  - inversion H; subst. cbn. auto.
  - world_step_in H.
    destruct (fault env (S (calls w))); [discriminate|].
    world_step_in H.
    rewrite P in H. cbn [app flush insert_row] in H.
    destruct (has_session (db w) session_id); [discriminate|].
    cbn in H. inversion H; subst. cbn. auto.
Qed.

(** C8. In a turn that starts with an empty unit of work, on a store whose
    messages are all older than the server clock, the history handed to the
    prompt is the reverse of the 6 most recent messages of the session
    taken most recent first, hence chronological and at most 6 long; its
    last element is the user message the turn has just committed, after
    the (at most 5) most recent earlier messages.  Every message of the
    history is a stored message of the session of the turn; the history is
    in the order of creation times; and a stored message of the session
    that is left out is no more recent than each of the 6 that are in. *)
Theorem history_includes_current_message (env : Env)
  (session_id user_query : string) (w w' : World)
  (summary context : string) (history : list Message) :
  pending w = [] ->
  (forall m, In m (messages (db w)) -> msg_created_at m < now w) ->
  prepare_turn env session_id user_query w = (Ok (summary, context, history), w') ->
  history = rev (last_messages 6 session_id (db w')) /\
  StronglySorted newer_eq (last_messages 6 session_id (db w')) /\
  List.length history <= 6 /\
  (exists current,
     In current (messages (db w')) /\
     ~ In current (messages (db w)) /\
     msg_session_id current = session_id /\
     msg_role current = "user" /\
     msg_content current = user_query /\
     history
     = rev (firstn 5 (sort_by newer (session_messages (db w) session_id)))
       ++ [current]) /\
  (forall m, In m history ->
     In m (messages (db w')) /\ msg_session_id m = session_id) /\
  StronglySorted (fun a b => msg_created_at a <= msg_created_at b) history /\
  (forall m, In m (messages (db w')) -> msg_session_id m = session_id ->
     In m history \/
     (List.length history = 6 /\
      forall h, In h history -> msg_created_at m <= msg_created_at h)).
Proof.
  intros P Clock H.
  unfold prepare_turn in H. unfold bind at 1 in H.
  destruct (ensure_session env session_id w) as [[s|e] w1] eqn:E1; [|discriminate].
  unfold bind at 1 in H.
  destruct (save_message env session_id "user" user_query w1)
    as [[[]|e] w2] eqn:E2; [|discriminate].
  unfold bind at 1 in H.
  destruct (retrieve_context env session_id user_query w2)
    as [[c|e] w3] eqn:E3; [|discriminate].
  apply retrieve_context_same_db in E3. unfold same_db in E3.
  destruct (@ensure_session_ok _ _ _ _ _ P E1) as (P1 & M1 & N1).
  pose proof (@save_message_ok _ _ _ _ _ _ P1 E2) as M2.
  cbv [read_history db_execute await bind get ret] in H.
  destruct (fault env (calls w3)); [discriminate|].
  inversion H; subst. clear H. cbn [db tick].
  set (current := mkMessage (next_id w1) session_id "user" user_query (now w1)) in *.
  assert (session_messages (db w3) session_id
          = session_messages (db w) session_id ++ [current]) as SM.
  { unfold session_messages. rewrite E3, M2, M1, filter_app. simpl.
    now rewrite String.eqb_refl. }
  assert (sort_by newer (session_messages (db w3) session_id)
          = current :: sort_by newer (session_messages (db w) session_id)) as SO.
  { rewrite SM. apply sort_by_newer_last. intros x Hx.
    apply filter_In in Hx. destruct Hx as [Hx _]. apply Clock in Hx.
    simpl. lia. }
  split; [reflexivity|]. split; [|split; [|split; [|split; [|split]]]].
  - apply last_messages_sorted.
  - rewrite length_rev. unfold last_messages. rewrite length_firstn. lia.
  - exists current. split; [|split].
    + rewrite E3, M2. apply in_or_app. right. now left.
    + intro Hin. apply Clock in Hin. simpl in Hin. lia.
    + repeat split. unfold last_messages. rewrite SO. reflexivity.
  - intros m Hm. now apply last_messages_In in Hm.
  - apply (StronglySorted_rev (last_messages_sorted 6 session_id (db w3))).
  - intros m Hm Hsid.
    destruct (@firstn_window _ newer_eq 6
                (sort_by newer (session_messages (db w3) session_id)) m
                (newer_sorted _)) as [Hin|[Hlen Hall]].
    + eapply Permutation_in; [apply sort_by_perm|].
      apply filter_In. split; [exact Hm | now apply String.eqb_eq].
    + left. apply in_rev. rewrite rev_involutive. exact Hin.
    + right. split; [now rewrite length_rev|].
      intros h Hh. apply in_rev in Hh. apply (Hall h Hh).
Qed.

Lemma history_includes_current_message_witness :
  let w' := snd chat_turn in
  let history := [mkMessage 3 "s1" "user" "hello" 2;
                  mkMessage 4 "s1" "assistant" "Hello" 3;
                  mkMessage 16 "s1" "user" "and then?" 6] in
  history = rev (last_messages 6 "s1" (db w')) /\
  StronglySorted newer_eq (last_messages 6 "s1" (db w')) /\
  List.length history <= 6 /\
  (exists current,
     In current (messages (db w')) /\
     ~ In current (messages (db library_world)) /\
     msg_session_id current = "s1" /\
     msg_role current = "user" /\
     msg_content current = "and then?" /\
     history
     = rev (firstn 5 (sort_by newer (session_messages (db library_world) "s1")))
       ++ [current]) /\
  (forall m, In m history ->
     In m (messages (db w')) /\ msg_session_id m = "s1") /\
  StronglySorted (fun a b => msg_created_at a <= msg_created_at b) history /\
  (forall m, In m (messages (db w')) -> msg_session_id m = "s1" ->
     In m history \/
     (List.length history = 6 /\
      forall h, In h history -> msg_created_at m <= msg_created_at h)).
Proof.
  apply (@history_includes_current_message (sample_env no_fault) "s1" "and then?"
           library_world (snd chat_turn) ""
           (match fst chat_turn with Ok (_, c, _) => c | Raise _ => "" end)).
  - reflexivity.
  - simpl. intros m [<-|[<-|[]]]; simpl; lia.
  - reflexivity.
Defined.

(* ------------------------------------------------------------------ *)
(** ** Ingestion failures *)

Lemma find_app_last {A} (f : A -> bool) (l : list A) (x : A) :
  f x = true -> exists y, find f (l ++ [x]) = Some y.
Proof.
  intro H. induction l as [|z l IH]; simpl.
  - rewrite H. eauto.
  - destruct (f z); eauto.
Qed.

(** Steps 2 to 5 when the embedding call fails: the Document was committed
    before, the rollback has nothing of it to undo. *)
Lemma store_document_embedding_failure (env : Env)
  (session_id name content : string) (w : World) (svc : Embeddings) (e : exn) :
  pending w = [] ->
  has_session (db w) session_id = true ->
  fault env (calls w) = None ->
  fault env (S (calls w)) = None ->
  RecursiveCharacterTextSplitter env 800 100 content <> [] ->
  get_embeddings_service env = Ok svc ->
  fault env (S (S (calls w))) = Some e ->
  exists err w',
    store_document env session_id name content w = (Raise err, w') /\
    (fault env (S (S (S (calls w)))) = None ->
     err = error_processing_file e /\ pending w' = []) /\
    db w' = mkDatabase (sessions (db w)) (messages (db w))
              (documents (db w)
               ++ [mkDocument (next_document_id w) session_id name content (now w)])
              (document_chunks (db w)).
Proof.
  intros P HS F0 F1 C G F2.
  destruct (@find_app_last _ (fun x => Nat.eqb (doc_id x) (next_document_id w))
              (documents (db w))
              (mkDocument (next_document_id w) session_id name content (now w))
              (Nat.eqb_refl _)) as [doc Hdoc].
  cbv [store_document try_except bind db_add db_commit db_refresh_document
       aembed_documents db_rollback await lift modify get ret raise].
  world_step. rewrite F0.
  world_step. rewrite P.
  cbn [app flush insert_row]. rewrite HS.
  commit_step.
  rewrite F1.
  commit_step.
  rewrite Hdoc.
  destruct (RecursiveCharacterTextSplitter env 800 100 content) as [|c cs];
    [contradiction|].
  rewrite G.
  commit_step.
  rewrite F2.
  commit_step.
  destruct (fault env (S (S (S (calls w))))) as [e'|].
  - eexists. eexists. split; [reflexivity|]. split; [discriminate | reflexivity].
  - eexists. eexists. split; [reflexivity|]. split; [now split | reflexivity].
Qed.

(** C2, as the code has it.  When the batched embedding call of an upload
    fails, the upload fails (with the 500 error when the rollback itself
    succeeds) and no DocumentChunk row of the upload is stored; the Document
    row, which was committed before the text was split, stays in the store.
    The commit, the refresh and the embedding call are the three awaited
    calls that follow the reading of the file. *)
Theorem embedding_failure_keeps_document (env : Env) (file : UploadFile)
  (session_id content : string) (w w1 : World) (svc : Embeddings) (e : exn) :
  read_content env file (upload_filename file) w = (Ok content, w1) ->
  nonempty (strip content) = true ->
  pending w = [] ->
  has_session (db w) session_id = true ->
  fault env (calls w1) = None ->
  fault env (S (calls w1)) = None ->
  RecursiveCharacterTextSplitter env 800 100 content <> [] ->
  get_embeddings_service env = Ok svc ->
  fault env (S (S (calls w1))) = Some e ->
  exists err w',
    process_file env file session_id w = (Raise err, w') /\
    (fault env (S (S (S (calls w1)))) = None -> err = error_processing_file e) /\
    document_chunks (db w') = document_chunks (db w) /\
    exists doc,
      documents (db w') = documents (db w) ++ [doc] /\
      doc_session_id doc = session_id /\
      doc_filename doc = upload_filename file /\
      doc_content doc = content.
Proof.
  intros R N P HS F0 F1 C G F2.
  pose proof (@read_content_same_db env file _ _ _ _ R) as D.
  pose proof (@read_content_same_pending env file _ _ _ _ R) as P1.
  unfold same_db in D. unfold same_pending in P1.
  rewrite <- D in HS. rewrite <- P1 in P.
  destruct (@store_document_embedding_failure env session_id
              (upload_filename file) content w1 svc e P HS F0 F1 C G F2)
    as (err & w' & H & Herr & Hdb).
  exists err, w'. split.
  - unfold process_file, bind. rewrite R, N. exact H.
  - split; [intro F3; now apply Herr|].
    rewrite Hdb, <- D. cbn. split; [reflexivity|].
    eexists. split; [reflexivity|]. now cbn.
Qed.

Lemma embedding_failure_keeps_document_witness :
  exists err w',
    process_file (sample_env (fault_at 3 provider_down))
      (mkUploadFile (Some "notes.txt") [x61; x20; x62]) "s1" session_world
    = (Raise err, w') /\
    (fault (sample_env (fault_at 3 provider_down)) 4 = None ->
     err = error_processing_file provider_down) /\
    document_chunks (db w') = document_chunks (db session_world) /\
    exists doc,
      documents (db w') = documents (db session_world) ++ [doc] /\
      doc_session_id doc = "s1" /\
      doc_filename doc = "notes.txt" /\
      doc_content doc = "a b".
Proof.
  apply (@embedding_failure_keeps_document (sample_env (fault_at 3 provider_down))
           (mkUploadFile (Some "notes.txt") [x61; x20; x62]) "s1" "a b"
           session_world (tick session_world)
           (GoogleGenerativeAIEmbeddings "models/text-embedding-004")
           provider_down);
    try reflexivity.
  discriminate.
Defined.

(** C2, as stated, fails: the embedding call of this upload fails, the
    upload fails with the 500 error, and its Document row is in the store
    afterwards (with no chunk). *)
Lemma document_survives_embedding_failure :
  let env := sample_env (fault_at 3 provider_down) in
  let file := mkUploadFile (Some "notes.txt") [x61; x20; x62] in
  let out := process_file env file "s1" session_world in
  fst out = Raise (error_processing_file provider_down) /\
  documents (db session_world) = [] /\
  documents (db (snd out)) = [mkDocument 1 "s1" "notes.txt" "a b" 1] /\
  document_chunks (db (snd out)) = [] /\
  documents (db (snd out)) <> documents (db session_world).
Proof.
  cbv zeta. repeat split; try reflexivity.
  vm_compute. discriminate.
Qed.

Lemma error_reading_file_not_empty_content (e : exn) :
  error_reading_file e <> empty_content.
Proof. unfold error_reading_file, empty_content. simpl. intro H. discriminate. Qed.

(** An upload whose text comes out blank is refused with the empty-content
    error once the file is read. *)
Lemma blank_pdf_rejected (env : Env) (file : UploadFile) (session_id : string)
  (w : World) (text : string) :
  pdf_upload file ->
  fault env (calls w) = None ->
  parse_pdf env (file_bytes file) = Ok text ->
  nonempty (strip text) = false ->
  process_file env file session_id w = (Raise empty_content, tick w).
Proof.
  unfold pdf_upload. intros K F T B.
  cbv [process_file read_content file_read try_except bind await lift ret raise].
  rewrite K, F, T. cbv beta iota. rewrite B. reflexivity.
Qed.

(** C6, as the code has it.  Once the file is read: a [.txt] upload whose
    bytes cannot be decoded fails with the 400 error "Error reading file",
    which is not the empty-content error; a [.pdf] upload whose reader cannot
    be built, or one of whose pages cannot be extracted with only blank text
    before it, fails with the empty-content error itself.  In each case the
    store and the unit of work are left as they were. *)
Theorem extraction_failure_rejected (env : Env) (file : UploadFile)
  (session_id : string) (w : World) (e : exn) :
  fault env (calls w) = None ->
  (txt_upload file /\ decode_utf8 env (file_bytes file) = Raise e)
  \/ (pdf_upload file /\ PdfReader env (file_bytes file) = Raise e)
  \/ (pdf_upload file /\
      exists pages,
        PdfReader env (file_bytes file) = Ok pages /\
        In (Raise e) pages /\
        nonempty (strip (text_before_failure pages)) = false) ->
  exists err w',
    process_file env file session_id w = (Raise err, w') /\
    db w' = db w /\
    pending w' = pending w /\
    (txt_upload file -> err = error_reading_file e /\ err <> empty_content) /\
    (pdf_upload file -> err = empty_content).
Proof.
  intros F [[[K1 K2] D]|[[K R]|[K (pages & R & _ & B)]]].
  - exists (error_reading_file e), (tick w). split; [|repeat split].
    + cbv [process_file read_content file_read try_except bind await lift ret raise].
      rewrite K1, K2, F, D. reflexivity.
    + apply error_reading_file_not_empty_content.
    + unfold pdf_upload. congruence.
  - exists empty_content, (tick w). split; [|repeat split].
    + apply blank_pdf_rejected with (text := ""); auto.
      now apply parse_pdf_no_reader with (e := e).
    + destruct H as [H _]. unfold pdf_upload in K. congruence.
    + destruct H as [H _]. unfold pdf_upload in K. congruence.
  - exists empty_content, (tick w). split; [|repeat split].
    + apply blank_pdf_rejected with (text := text_before_failure pages); auto.
      now apply parse_pdf_pages.
    + destruct H as [H _]. unfold pdf_upload in K. congruence.
    + destruct H as [H _]. unfold pdf_upload in K. congruence.
Qed.

Lemma extraction_failure_rejected_witness :
  exists err w',
    process_file (sample_env no_fault) (mkUploadFile (Some "notes.txt") [x61; xff])
      "s1" session_world
    = (Raise err, w') /\
    db w' = db session_world /\
    pending w' = pending session_world /\
    (txt_upload (mkUploadFile (Some "notes.txt") [x61; xff]) ->
     err = error_reading_file (Error "UnicodeDecodeError" "invalid start byte")
     /\ err <> empty_content) /\
    (pdf_upload (mkUploadFile (Some "notes.txt") [x61; xff]) -> err = empty_content).
Proof.
  apply (@extraction_failure_rejected (sample_env no_fault)
           (mkUploadFile (Some "notes.txt") [x61; xff]) "s1" session_world
           (Error "UnicodeDecodeError" "invalid start byte")).
  - reflexivity.
  - left. split; [split|]; reflexivity.
Defined.

(** C6, as stated, fails: a corrupt PDF is refused with the very error that
    a blank text file gets, and a PDF whose second page cannot be extracted
    is ingested, cut after its first page. *)
Lemma corrupt_pdf_not_distinguished :
  let env := sample_env no_fault in
  PdfReader env [x00] = Raise (Error "PdfReadError" "EOF marker not found") /\
  fst (process_file env (mkUploadFile (Some "scan.pdf") [x00]) "s1" session_world)
  = Raise empty_content /\
  fst (process_file env (mkUploadFile (Some "blank.txt") [x20]) "s1" session_world)
  = Raise empty_content /\
  PdfReader env [x25; x61; x0c; x00]
  = Ok [Ok "a"; Raise (Error "PdfReadError" "bad content stream")] /\
  documents
    (db (snd (process_file env (mkUploadFile (Some "cut.pdf") [x25; x61; x0c; x00])
                "s1" session_world)))
  = [mkDocument 1 "s1" "cut.pdf" "a" 1].
Proof. cbv zeta. repeat split; reflexivity. Qed.

(* ------------------------------------------------------------------ *)
(** * Further properties *)

(** ** What the operations may write *)

Ltac frame side :=
  repeat first
    [ side
    | apply preserves_ret
    | apply preserves_raise
    | apply preserves_lift
    | apply preserves_get
    | apply preserves_await
    | apply preserves_modify
    | apply preserves_bind
    | apply preserves_try_except
    | match goal with
      | |- forall _, _ => intro
      | |- preserves _ (match ?x with _ => _ end) => destruct x
      end ].

Ltac store_side :=
  solve [ intros; unfold same_store in *; simpl in *; intuition congruence ].

Lemma extends_refl (d : Database) : extends d d.
Proof. repeat split; exists []; now rewrite app_nil_r. Qed.

Lemma extends_trans (a b c : Database) :
  extends a b -> extends b c -> extends a c.
Proof.
  intros (S1 & M1 & D1 & C1) (S2 & M2 & D2 & C2).
  destruct S1 as [s1 S1], M1 as [m1 M1], D1 as [d1 D1], C1 as [c1 C1].
  destruct S2 as [s2 S2], M2 as [m2 M2], D2 as [d2 D2], C2 as [c2 C2].
  repeat split; eexists.
  - rewrite S2, S1, <- app_assoc. reflexivity.
  - rewrite M2, M1, <- app_assoc. reflexivity.
  - rewrite D2, D1, <- app_assoc. reflexivity.
  - rewrite C2, C1, <- app_assoc. reflexivity.
Qed.

Lemma append_only_trans (a b c : World) :
  append_only a b -> append_only b c -> append_only a c.
Proof. apply extends_trans. Qed.

Lemma insert_row_extends (t : nat) (r : Row) (d d' : Database) (n n' : Serials)
  (ids : list nat) :
  insert_row t r d n = (Some (d', ids), n') -> extends d d'.
Proof.
  destruct r; simpl;
    [ destruct (has_session d id) | destruct (has_session d session_id)
    | destruct (has_session d session_id) | destruct (has_document d document_id) ];
    intro H; inversion H; subst; clear H; unfold extends; simpl;
    repeat split; first [ eexists; reflexivity | exists []; now rewrite app_nil_r ].
Qed.

Lemma flush_extends (t : nat) (rows : list Row) :
  forall (d d' : Database) (n n' : Serials) (ids : list nat),
    flush t rows d n = (Some (d', ids), n') -> extends d d'.
Proof.
  induction rows as [|r rows IH]; intros d d' n n' ids H; simpl in H.
  - inversion H; subst. apply extends_refl.
  - destruct (insert_row t r d n) as [[[d1 ids1]|] n1] eqn:E; [|discriminate].
    destruct (flush t rows d1 n1) as [[[d2 ids2]|] n2] eqn:F; [|discriminate].
    inversion H; subst.
    eapply extends_trans; [eapply insert_row_extends; exact E | eapply IH; exact F].
Qed.

Ltac append_side :=
  first [ exact append_only_trans
        | solve [ intros; exact (extends_refl _) ] ].

Lemma db_commit_append_only (env : Env) : preserves append_only (db_commit env).
Proof.
  unfold db_commit. apply preserves_bind; [append_side | frame append_side |].
  intros _ w r w' H.
  destruct (flush (now w) (pending w) (db w) (serials w)) as [[[d ids]|] n] eqn:F;
    inversion H; subst.
  - eapply flush_extends; exact F.
  - apply extends_refl.
Qed.

Lemma store_document_append_only (env : Env) (session_id name content : string) :
  preserves append_only (store_document env session_id name content).
Proof.
  pose proof (db_commit_append_only env) as C.
  unfold store_document, db_add, db_add_all, db_refresh_document, db_rollback,
    aembed_documents.
  frame ltac:(first [ exact C | append_side ]).
Qed.

(** X1. An upload only appends rows: whatever the collaborators do and
    however it ends, every table of the store afterwards is the table before
    with rows added at its end; no stored row is deleted or altered. *)
Theorem process_file_append_only (env : Env) (file : UploadFile)
  (session_id : string) (w w' : World) (r : Result Document) :
  process_file env file session_id w = (r, w') ->
  extends (db w) (db w').
Proof.
  revert w r w'. change (preserves append_only (process_file env file session_id)).
  pose proof (store_document_append_only env session_id (upload_filename file)) as S.
  unfold process_file, read_content, file_read.
  frame ltac:(first [ exact (S _) | append_side ]).
Qed.

Lemma process_file_append_only_witness :
  extends (db session_world) (db (snd upload_run)).
Proof.
  apply (@process_file_append_only (sample_env no_fault)
           (mkUploadFile (Some "notes.txt") [x61; x20; x62]) "s1"
           session_world (snd upload_run) (fst upload_run)).
  reflexivity.
Defined.

Lemma same_store_append_only {A} (m : M World A) :
  preserves same_store m -> preserves append_only m.
Proof.
  intros H w r w' E. apply H in E. destruct E as [E _].
  unfold append_only. rewrite E. apply extends_refl.
Qed.

Lemma same_store_turn_writes {A} (session_id : string) (m : M World A) :
  preserves same_store m -> preserves (turn_writes session_id) m.
Proof.
  intros H w r w' E. apply H in E. destruct E as [E1 E2].
  intro P. rewrite E1, E2. repeat split; auto; exists []; split; auto using app_nil_r.
Qed.

Lemma turn_writes_refl (session_id : string) (w : World) :
  turn_writes session_id w w.
Proof.
  intro P. repeat split; auto; exists []; split; auto using app_nil_r.
Qed.

Lemma turn_writes_trans (session_id : string) (a b c : World) :
  turn_writes session_id a b -> turn_writes session_id b c ->
  turn_writes session_id a c.
Proof.
  intros H1 H2 P.
  destruct (H1 P) as (P1 & D1 & C1 & (s1 & S1 & FS1) & (m1 & M1 & FM1)).
  destruct (H2 P1) as (P2 & D2 & C2 & (s2 & S2 & FS2) & (m2 & M2 & FM2)).
  split; [exact P2|]. split; [congruence|]. split; [congruence|]. split.
  - exists (s1 ++ s2). split; [now rewrite S2, S1, <- app_assoc|].
    apply Forall_app; auto.
  - exists (m1 ++ m2). split; [now rewrite M2, M1, <- app_assoc|].
    apply Forall_app; auto.
Qed.

Lemma llm_attempts_same_store (env : Env) (messages : list ChatMessage)
  (max_retries : nat) (fallback : string) (attempts : list nat) :
  forall retry_delay,
    preserves same_store
      (llm_attempts env messages max_retries attempts retry_delay fallback).
Proof.
  induction attempts as [|attempt rest IH]; intro retry_delay.
  - cbn [llm_attempts]. frame store_side.
  - cbn [llm_attempts]. unfold ainvoke, sleep.
    frame ltac:(first [ exact (IH _) | store_side ]).
Qed.

Lemma generate_same_store (env : Env) (messages : list ChatMessage) :
  preserves same_store (generate env messages).
Proof. unfold generate. apply llm_attempts_same_store. Qed.

Lemma retrieve_context_same_store (env : Env) (session_id user_query : string) :
  preserves same_store (retrieve_context env session_id user_query).
Proof.
  unfold retrieve_context, retrieve_chunks, aembed_query, db_execute.
  frame store_side.
Qed.

Lemma read_history_same_store (env : Env) (session_id : string) :
  preserves same_store (read_history env session_id).
Proof. unfold read_history, db_execute. frame store_side. Qed.

(** The flush of rows of a turn writes rows of the turn. *)
Lemma flush_turn_rows (session_id : string) (t : nat) (rows : list Row) :
  forall (d d' : Database) (n n' : Serials) (ids : list nat),
    Forall (turn_row session_id) rows ->
    flush t rows d n = (Some (d', ids), n') ->
    documents d' = documents d /\
    document_chunks d' = document_chunks d /\
    (exists new, sessions d' = sessions d ++ new /\
                 Forall (fun s => sess_id s = session_id) new) /\
    (exists new, messages d' = messages d ++ new /\
                 Forall (fun m => msg_session_id m = session_id /\
                                  chat_role (msg_role m)) new).
Proof.
  induction rows as [|r rows IH]; intros d d' n n' ids P H; simpl in H.
  - inversion H; subst. repeat split; exists []; split; auto using app_nil_r.
  - inversion P as [|? ? Pr Prows]; subst.
    destruct (insert_row t r d n) as [[[d1 ids1]|] n1] eqn:E; [|discriminate].
    destruct (flush t rows d1 n1) as [[[d2 ids2]|] n2] eqn:F; [|discriminate].
    inversion H; subst. clear H.
    destruct (IH _ _ _ _ _ Prows F) as (D & C & (s2 & S2 & FS2) & (m2 & M2 & FM2)).
    destruct r as [id|sid role content| |]; simpl in Pr; try contradiction;
      simpl in E.
    + destruct (has_session d id); [discriminate|]. inversion E; subst. clear E.
      simpl in *. repeat split; auto.
      * exists (mkSession session_id t None :: s2).
        split; [now rewrite S2, <- app_assoc | constructor; auto].
      * exists m2. auto.
    + destruct Pr as [-> Hrole].
      destruct (has_session d session_id); [|discriminate].
      inversion E; subst. clear E. simpl in *. repeat split; auto.
      * exists s2. auto.
      * exists (mkMessage (message_serial n) session_id role content t :: m2).
        split; [now rewrite M2, <- app_assoc | constructor; auto].
Qed.

Lemma db_commit_turn_writes (env : Env) (session_id : string) :
  preserves (turn_writes session_id) (db_commit env).
Proof.
  unfold db_commit. apply preserves_bind.
  - apply turn_writes_trans.
  - apply preserves_await. intro w. apply (@turn_writes_refl session_id w).
  - intros _ w r w' H P.
    destruct (flush (now w) (pending w) (db w) (serials w)) as [[[d ids]|] n] eqn:F;
      inversion H; subst.
    + destruct (@flush_turn_rows session_id _ _ _ _ _ _ _ P F) as (D & C & S & M).
      cbn. repeat split; auto.
    + cbn. repeat split; auto; exists []; split; auto using app_nil_r.
Qed.

Lemma db_add_turn_writes (session_id : string) (r : Row) :
  turn_row session_id r -> preserves (turn_writes session_id) (db_add r).
Proof.
  intros Hr. unfold db_add. apply preserves_modify. intros w P. cbn.
  split; [apply Forall_app; auto|].
  repeat split; auto; exists []; split; auto using app_nil_r.
Qed.

Ltac turn_side sid :=
  first [ exact (@turn_writes_trans sid)
        | exact (@turn_writes_refl sid)
        | solve [ intro; apply (@turn_writes_refl sid) ] ].

Lemma save_message_turn_writes (env : Env) (session_id role content : string) :
  chat_role role ->
  preserves (turn_writes session_id) (save_message env session_id role content).
Proof.
  intro Hrole. unfold save_message.
  pose proof (@db_commit_turn_writes env session_id) as C.
  pose proof (@db_add_turn_writes session_id (NewMessage session_id role content)
                (conj eq_refl Hrole)) as A.
  frame ltac:(first [ exact C | exact A | turn_side session_id ]).
Qed.

Lemma ensure_session_turn_writes (env : Env) (session_id : string) :
  preserves (turn_writes session_id) (ensure_session env session_id).
Proof.
  unfold ensure_session, db_execute.
  pose proof (@db_commit_turn_writes env session_id) as C.
  pose proof (@db_add_turn_writes session_id (NewSession session_id) eq_refl) as A.
  frame ltac:(first [ exact C | exact A | turn_side session_id ]).
Qed.

(** X2. A chat turn that starts with an empty unit of work writes for its
    own session only, whatever the collaborators do and however it ends: it
    leaves the documents and the chunks as they were, appends at most
    session rows for its session, and appends messages of its session with
    the role [user] or [assistant] only. *)
Theorem process_chat_writes_own_session (env : Env)
  (session_id user_query : string) (w w' : World) (r : Result string) :
  pending w = [] ->
  process_chat env session_id user_query w = (r, w') ->
  documents (db w') = documents (db w) /\
  document_chunks (db w') = document_chunks (db w) /\
  (exists rows, sessions (db w') = sessions (db w) ++ rows /\
                Forall (fun s => sess_id s = session_id) rows) /\
  (exists rows, messages (db w') = messages (db w) ++ rows /\
                Forall (fun m => msg_session_id m = session_id /\
                                 chat_role (msg_role m)) rows).
Proof.
  intros P H.
  assert (preserves (turn_writes session_id)
            (process_chat env session_id user_query)) as T.
  { pose proof (@ensure_session_turn_writes env session_id) as E.
    pose proof (@save_message_turn_writes env session_id "user" user_query
                  (or_introl eq_refl)) as U.
    pose proof (fun text => @save_message_turn_writes env session_id "assistant"
                              text (or_intror eq_refl)) as A.
    pose proof (@same_store_turn_writes _ session_id _
                  (@retrieve_context_same_store env session_id user_query)) as R.
    pose proof (@same_store_turn_writes _ session_id _
                  (@read_history_same_store env session_id)) as Hh.
    pose proof (fun ms => @same_store_turn_writes _ session_id _
                            (@generate_same_store env ms)) as G.
    unfold process_chat, process_chat_body, prepare_turn.
    frame ltac:(first [ exact E | exact U | exact (A _) | exact R | exact Hh
                      | exact (G _) | turn_side session_id ]). }
  apply T in H. apply H. rewrite P. constructor.
Qed.

Lemma process_chat_writes_own_session_witness :
  documents (db (snd first_turn)) = documents (db empty_world) /\
  document_chunks (db (snd first_turn)) = document_chunks (db empty_world) /\
  (exists rows, sessions (db (snd first_turn)) = sessions (db empty_world) ++ rows /\
                Forall (fun s => sess_id s = "s1") rows) /\
  (exists rows, messages (db (snd first_turn)) = messages (db empty_world) ++ rows /\
                Forall (fun m => msg_session_id m = "s1" /\
                                 chat_role (msg_role m)) rows).
Proof.
  apply (@process_chat_writes_own_session (sample_env no_fault) "s1" "hi"
           empty_world (snd first_turn) (fst first_turn)); reflexivity.
Defined.

(* ------------------------------------------------------------------ *)
(** ** Retrieval degrades, it does not fail *)

Ltac calls_side :=
  solve [ intros; unfold same_but_calls in *; simpl in *; intuition congruence ].

Lemma retrieve_context_same_but_calls (env : Env) (session_id user_query : string) :
  preserves same_but_calls (retrieve_context env session_id user_query).
Proof.
  unfold retrieve_context, retrieve_chunks, aembed_query, db_execute.
  frame calls_side.
Qed.

Lemma top_chunks_of_session (session_id : string) (q : vector) (d : Database)
  (c : DocumentChunk) :
  In c (top_chunks session_id q d) ->
  In c (document_chunks d) /\
  exists doc, In doc (documents d) /\
              doc_id doc = chunk_document_id c /\
              doc_session_id doc = session_id.
Proof.
  intro H. apply session_chunks_In. unfold top_chunks in H. apply In_firstn in H.
  eapply Permutation_in; [apply Permutation_sym, sort_by_perm | exact H].
Qed.

(** X3. The retrieval stage of a turn never raises and writes nothing to
    the store.  Its text is the "Error retrieving context." marker, or the
    "No relevant documents found." marker, or the contents, each under a
    [[Chunk]: ] header and two line feeds apart, of at most 3 stored chunks
    that all join a Document of the session; it is the error marker whenever
    the embedding of the query or the search is refused. *)
Theorem retrieve_context_degrades (env : Env) (session_id user_query : string)
  (w : World) :
  exists text w',
    retrieve_context env session_id user_query w = (Ok text, w') /\
    db w' = db w /\
    (text = "Error retrieving context."
     \/ text = "No relevant documents found."
     \/ exists chunks,
          chunks <> [] /\ List.length chunks <= 3 /\
          text = join (nl ++ nl)%string
                   (map (fun chunk => ("[Chunk]: " ++ chunk_content chunk)%string)
                      chunks) /\
          forall c, In c chunks ->
            In c (document_chunks (db w)) /\
            exists doc, In doc (documents (db w)) /\
                        doc_id doc = chunk_document_id c /\
                        doc_session_id doc = session_id) /\
    (forall svc, get_embeddings_service env = Ok svc ->
       (exists e, fault env (calls w) = Some e)
       \/ (exists e, fault env (S (calls w)) = Some e) ->
       text = "Error retrieving context.").
Proof.
  destruct (retrieve_context env session_id user_query w) as [r w'] eqn:E.
  pose proof (@retrieve_context_same_db env session_id user_query _ _ _ E) as F.
  unfold same_db in F.
  cbv [retrieve_context retrieve_chunks aembed_query db_execute await
       try_except bind lift get ret] in E.
  destruct (get_embeddings_service env) as [svc|e0].
  2:{ inversion E; subst. eexists. eexists. split; [reflexivity|].
      split; [exact F|]. split; [now left | discriminate]. }
  destruct (fault env (calls w)) as [e0|].
  { inversion E; subst. eexists. eexists. split; [reflexivity|].
    split; [exact F|]. split; [now left | reflexivity]. }
  cbn [calls tick db] in E.
  destruct (fault env (S (calls w))) as [e1|].
  { inversion E; subst. eexists. eexists. split; [reflexivity|].
    split; [exact F|]. split; [now left | reflexivity]. }
  cbn [calls tick db] in E.
  assert (forall text : string,
            forall svc0 : Embeddings, Ok svc = Ok svc0 ->
              (exists e : exn, @None exn = Some e)
              \/ (exists e : exn, @None exn = Some e) ->
              text = "Error retrieving context.") as Up.
  { intros text svc0 _ [[e He]|[e He]]; discriminate. }
  destruct (top_chunks session_id (query_embedding env user_query) (db w))
    as [|c cs] eqn:T; inversion E; subst; clear E.
  - eexists. eexists. split; [reflexivity|]. split; [exact F|].
    split; [right; now left | apply Up].
  - eexists. eexists. split; [reflexivity|]. split; [exact F|].
    split; [|apply Up].
    right. right. exists (c :: cs). split; [discriminate|]. split.
    + rewrite <- T. unfold top_chunks. rewrite length_firstn. lia.
    + split; [reflexivity|]. intros x Hx. rewrite <- T in Hx.
      now apply top_chunks_of_session in Hx.
Qed.

(** X25. A turn whose search is refused by the store, in a store that then
    refuses the next statement of the same transaction as PostgreSQL does:
    the retrieval stage yields its error marker, the reading of the history
    raises, and the turn ends with the apology, three awaited calls after
    the user message was committed; the user message stays stored, no
    assistant message is written, no consolidation is scheduled and the
    model is not called. *)
Theorem refused_search_ends_turn (env : Env) (session_id user_query : string)
  (w w1 w2 : World) (summary : string) (svc : Embeddings) (e e' : exn) :
  ensure_session env session_id w = (Ok summary, w1) ->
  save_message env session_id "user" user_query w1 = (Ok tt, w2) ->
  get_embeddings_service env = Ok svc ->
  fault env (calls w2) = None ->
  fault env (S (calls w2)) = Some e ->
  fault env (S (S (calls w2))) = Some e' ->
  retrieve_context env session_id user_query w2
  = (Ok "Error retrieving context.", tick (tick w2)) /\
  read_history env session_id (tick (tick w2)) = (Raise e', tick (tick (tick w2))) /\
  process_chat env session_id user_query w
  = (Ok internal_error_reply, tick (tick (tick w2))) /\
  db (tick (tick (tick w2))) = db w2 /\
  tasks (tick (tick (tick w2))) = tasks w2.
Proof.
  intros E1 E2 G F0 F1 F2.
  assert (retrieve_context env session_id user_query w2
          = (Ok "Error retrieving context.", tick (tick w2))) as R.
  { cbv [retrieve_context retrieve_chunks aembed_query db_execute await
         try_except bind lift get ret].
    rewrite G, F0. cbn [calls tick db]. now rewrite F1. }
  assert (read_history env session_id (tick (tick w2))
          = (Raise e', tick (tick (tick w2)))) as Hh.
  { cbv [read_history db_execute await bind get ret].
    cbn [calls tick]. now rewrite F2. }
  split; [exact R|]. split; [exact Hh|]. split; [|split; reflexivity].
  unfold process_chat, try_except, process_chat_body, prepare_turn.
  unfold bind at 1. unfold bind at 1. rewrite E1.
  unfold bind at 1. rewrite E2.
  unfold bind at 1. rewrite R.
  unfold bind at 1. rewrite Hh. reflexivity.
Qed.

Lemma refused_search_ends_turn_witness :
  let env := sample_env (aborted_from 4) in
  let w2 := snd aborted_stage2 in
  retrieve_context env "s1" "hi" w2
  = (Ok "Error retrieving context.", tick (tick w2)) /\
  read_history env "s1" (tick (tick w2))
  = (Raise aborted_transaction, tick (tick (tick w2))) /\
  process_chat env "s1" "hi" empty_world
  = (Ok internal_error_reply, tick (tick (tick w2))) /\
  db (tick (tick (tick w2))) = db w2 /\
  tasks (tick (tick (tick w2))) = tasks w2.
Proof.
  apply (@refused_search_ends_turn (sample_env (aborted_from 4)) "s1" "hi"
           empty_world (snd aborted_stage1) (snd aborted_stage2) ""
           (GoogleGenerativeAIEmbeddings "models/text-embedding-004")
           statement_error aborted_transaction); reflexivity.
Defined.

(** X4. With the embeddings service configured and the store up, a turn on a
    session that has no chunk (no upload, or uploads of other sessions only)
    gets the "No relevant documents found." marker as its context. *)
Theorem retrieve_context_no_documents (env : Env) (session_id user_query : string)
  (w : World) (svc : Embeddings) :
  get_embeddings_service env = Ok svc ->
  fault env (calls w) = None ->
  fault env (S (calls w)) = None ->
  session_chunks (db w) session_id = [] ->
  retrieve_context env session_id user_query w
  = (Ok "No relevant documents found.", tick (tick w)).
Proof.
  intros G F0 F1 N.
  cbv [retrieve_context retrieve_chunks aembed_query db_execute await
       try_except bind lift get ret].
  rewrite G, F0. cbn [calls tick db]. rewrite F1. cbn [calls tick db].
  unfold top_chunks. rewrite N. reflexivity.
Qed.

Lemma retrieve_context_no_documents_witness :
  retrieve_context (sample_env no_fault) "s2" "whales?" upload_world
  = (Ok "No relevant documents found.", tick (tick upload_world)).
Proof.
  apply (@retrieve_context_no_documents (sample_env no_fault) "s2" "whales?"
           upload_world (GoogleGenerativeAIEmbeddings "models/text-embedding-004"));
    reflexivity.
Defined.

(** X5. With a provider name other than [gemini] and [openai], the chat
    model factory falls back to the OpenAI client while the embeddings
    factory raises; the retrieval stage of every turn then yields the error
    marker without a single call to a collaborator. *)
Theorem unsupported_provider_degrades (env : Env) (session_id user_query : string)
  (w : World) :
  LLM_PROVIDER (settings env) <> "gemini" ->
  LLM_PROVIDER (settings env) <> "openai" ->
  get_embeddings_service env
  = Raise (Error "ValueError"
             ("Unsupported LLM_PROVIDER: " ++ LLM_PROVIDER (settings env))) /\
  (llm_init env (mkLLM "openai" (OPENAI_MODEL (settings env)) 7) = None ->
   get_llm env = Ok (mkLLM "openai" (OPENAI_MODEL (settings env)) 7)) /\
  retrieve_context env session_id user_query w
  = (Ok "Error retrieving context.", w).
Proof.
  intros G O. apply String.eqb_neq in G. apply String.eqb_neq in O.
  assert (get_embeddings_service env
          = Raise (Error "ValueError"
                     ("Unsupported LLM_PROVIDER: " ++ LLM_PROVIDER (settings env))))
    as E by (unfold get_embeddings_service; now rewrite G, O).
  split; [exact E|]. split.
  - intro I. unfold get_llm. now rewrite G, I.
  - cbv [retrieve_context retrieve_chunks try_except bind lift]. now rewrite E.
Qed.

Lemma unsupported_provider_degrades_witness :
  get_embeddings_service (with_settings claude_settings (sample_env no_fault))
  = Raise (Error "ValueError" "Unsupported LLM_PROVIDER: claude") /\
  (llm_init (with_settings claude_settings (sample_env no_fault))
     (mkLLM "openai" "gpt-3.5-turbo" 7) = None ->
   get_llm (with_settings claude_settings (sample_env no_fault))
   = Ok (mkLLM "openai" "gpt-3.5-turbo" 7)) /\
  retrieve_context (with_settings claude_settings (sample_env no_fault))
    "s1" "hi" library_world
  = (Ok "Error retrieving context.", library_world).
Proof.
  apply (@unsupported_provider_degrades
           (with_settings claude_settings (sample_env no_fault)) "s1" "hi"
           library_world); discriminate.
Defined.

(* ------------------------------------------------------------------ *)
(** ** The retry loop *)

(** An iteration whose call fails with an error that is not a rate limit:
    the error leaves the loop at once. *)
Lemma llm_attempts_fatal (env : Env) (messages : list ChatMessage)
  (max_retries attempt : nat) (rest : list nat) (retry_delay : nat)
  (fallback : string) (w : World) (llm : LLM) (e : exn) :
  get_llm env = Ok llm ->
  fault env (calls w) = Some e ->
  is_quota_error e = false ->
  llm_attempts env messages max_retries (attempt :: rest) retry_delay fallback w
  = (Raise e, tick w).
Proof.
  intros L F Q. cbn [llm_attempts].
  cbv [bind try_except lift ainvoke await ret sleep modify raise].
  rewrite L. cbv beta iota. rewrite F. cbv beta iota. rewrite Q. reflexivity.
Qed.

Lemma generate_first_try (env : Env) (messages : list ChatMessage) (w : World)
  (llm : LLM) :
  get_llm env = Ok llm ->
  fault env (calls w) = None ->
  generate env messages w = (Ok (completion env (calls w) llm messages), tick w).
Proof.
  intros L F. unfold generate. cbn [seq llm_attempts].
  cbv [bind try_except lift ainvoke await ret]. now rewrite L, F.
Qed.

(** X6. An error of the model that is not a rate limit is not retried: the
    turn makes one call to the model, does not sleep, stores no assistant
    message, schedules no consolidation and answers with the apology. *)
Theorem other_errors_not_retried (env : Env) (session_id user_query : string)
  (w w1 : World) (prepared : string * string * list Message) (llm : LLM)
  (e : exn) :
  prepare_turn env session_id user_query w = (Ok prepared, w1) ->
  get_llm env = Ok llm ->
  fault env (calls w1) = Some e ->
  is_quota_error e = false ->
  process_chat env session_id user_query w = (Ok internal_error_reply, tick w1).
Proof.
  intros P L F Q.
  unfold process_chat, try_except, process_chat_body. unfold bind at 1.
  rewrite P. destruct prepared as [[summary context] history].
  unfold bind at 1. unfold generate. cbn [seq].
  erewrite llm_attempts_fatal; [reflexivity | exact L | exact F | exact Q].
Qed.

Lemma other_errors_not_retried_witness :
  process_chat (sample_env (fault_at 6 provider_down)) "s1" "hi" empty_world
  = (Ok internal_error_reply, tick (snd quota_turn)).
Proof.
  apply (@other_errors_not_retried (sample_env (fault_at 6 provider_down))
           "s1" "hi" empty_world (snd quota_turn)
           ("", "No relevant documents found.", [mkMessage 1 "s1" "user" "hi" 1])
           (mkLLM "gemini" "gemini-2.0-flash" 7) provider_down);
    reflexivity.
Defined.

(** X7. Two rate-limit errors and then an answer: the loop sleeps 5 s, then
    10 s, and returns the answer of the third call. *)
Theorem two_rate_limits_then_success (env : Env) (messages : list ChatMessage)
  (w : World) (llm : LLM) (e0 e1 : exn) :
  get_llm env = Ok llm ->
  fault env (calls w) = Some e0 -> is_quota_error e0 = true ->
  fault env (S (calls w)) = Some e1 -> is_quota_error e1 = true ->
  fault env (S (S (calls w))) = None ->
  exists w',
    generate env messages w
    = (Ok (completion env (S (S (calls w))) llm messages), w') /\
    sleeps w' = sleeps w ++ [5; 10] /\
    calls w' = calls w + 3 /\
    db w' = db w.
Proof.
  intros L F0 Q0 F1 Q1 F2.
  unfold generate. cbn [seq].
  erewrite llm_attempts_retry; [ | exact L | exact F0 | exact Q0 | reflexivity ].
  erewrite llm_attempts_retry; [ | exact L | exact F1 | exact Q1 | reflexivity ].
  cbn [llm_attempts].
  cbv [bind try_except lift ainvoke await ret sleep modify raise].
  rewrite L. cbn [calls tick add_sleep]. rewrite F2.
  eexists. split; [reflexivity|]. cbn. rewrite <- app_assoc.
  repeat split. lia.
Qed.

Lemma two_rate_limits_then_success_witness :
  exists w',
    generate (sample_env (fun k => if (k <? 2)%nat then Some quota_error else None))
      [HumanMessage "hi"] empty_world
    = (Ok (completion
             (sample_env (fun k => if (k <? 2)%nat then Some quota_error else None))
             (S (S (calls empty_world))) (mkLLM "gemini" "gemini-2.0-flash" 7)
             [HumanMessage "hi"]), w') /\
    sleeps w' = sleeps empty_world ++ [5; 10] /\
    calls w' = calls empty_world + 3 /\
    db w' = db empty_world.
Proof.
  apply (@two_rate_limits_then_success
           (sample_env (fun k => if (k <? 2)%nat then Some quota_error else None))
           [HumanMessage "hi"] empty_world (mkLLM "gemini" "gemini-2.0-flash" 7)
           quota_error quota_error);
    reflexivity.
Defined.

(** The loop makes at most 3 calls and sleeps nothing, 5 s, or 5 s and
    then 10 s. *)
Lemma generate_bounded (env : Env) (messages : list ChatMessage) (w w' : World)
  (r : Result string) :
  generate env messages w = (r, w') ->
  calls w' <= calls w + 3 /\
  exists extra,
    sleeps w' = sleeps w ++ extra /\
    (extra = [] \/ extra = [5] \/ extra = [5; 10]).
Proof.
  intro H. unfold generate in H. cbn [seq llm_attempts] in H.
  cbv [bind try_except lift ainvoke await ret sleep modify raise] in H.
  destruct (get_llm env) as [llm|e].
  - destruct (fault env (calls w)) as [e0|].
    + destruct (is_quota_error e0); cbn in H.
      * destruct (fault env (S (calls w))) as [e1|].
        -- destruct (is_quota_error e1); cbn in H.
           ++ destruct (fault env (S (S (calls w)))) as [e2|];
                [rewrite andb_false_r in H|]; inversion H; subst; cbn;
                (split; [lia|]); exists [5; 10]; rewrite <- app_assoc; auto.
           ++ inversion H; subst; cbn. split; [lia|]. exists [5]. auto.
        -- inversion H; subst; cbn. split; [lia|]. exists [5]. auto.
      * inversion H; subst; cbn. split; [lia|]. exists []. rewrite app_nil_r. auto.
    + inversion H; subst; cbn. split; [lia|]. exists []. rewrite app_nil_r. auto.
  - destruct (is_quota_error e); cbn in H.
    + inversion H; subst; cbn. split; [lia|]. exists [5; 10].
      rewrite <- app_assoc. auto.
    + inversion H; subst; cbn. split; [lia|]. exists []. rewrite app_nil_r. auto.
Qed.

Lemma save_message_same_sleeps (env : Env) (session_id role content : string) :
  preserves same_sleeps (save_message env session_id role content).
Proof.
  pose proof (db_commit_same_sleeps env) as C.
  unfold save_message, db_add. preserve_with ltac:(exact C).
Qed.

(** X8. Whatever the collaborators do, a chat turn sleeps nothing, 5 s, or
    5 s and then 10 s: at most 15 s in all. *)
Theorem process_chat_sleeps_bounded (env : Env) (session_id user_query : string)
  (w w' : World) (r : Result string) :
  process_chat env session_id user_query w = (r, w') ->
  exists extra,
    sleeps w' = sleeps w ++ extra /\
    (extra = [] \/ extra = [5] \/ extra = [5; 10]) /\
    list_sum extra <= 15.
Proof.
  intro H.
  assert (exists extra,
            sleeps w' = sleeps w ++ extra /\
            (extra = [] \/ extra = [5] \/ extra = [5; 10])) as (extra & E & C).
  { unfold process_chat, try_except, process_chat_body in H.
    unfold bind at 1 in H.
    destruct (prepare_turn env session_id user_query w) as [[p|e] w1] eqn:P.
    - apply prepare_turn_same_sleeps in P. unfold same_sleeps in P.
      destruct p as [[summary context] history]. unfold bind at 1 in H.
      destruct (generate env (build_messages context summary history) w1)
        as [[text|e] w2] eqn:G;
        apply generate_bounded in G; destruct G as (_ & extra & G & C).
      + unfold bind at 1 in H.
        destruct (save_message env session_id "assistant" text w2)
          as [[u|e] w3] eqn:S3;
          apply save_message_same_sleeps in S3; unfold same_sleeps in S3.
        * cbv [bind modify ret] in H. inversion H; subst. cbn.
          exists extra. split; [congruence | exact C].
        * inversion H; subst. exists extra. split; [congruence | exact C].
      + inversion H; subst. exists extra. split; [congruence | exact C].
    - apply prepare_turn_same_sleeps in P. unfold same_sleeps in P.
      inversion H; subst. exists []. rewrite app_nil_r. auto. }
  exists extra. split; [exact E|]. split; [exact C|].
  destruct C as [->|[->| ->]]; simpl; lia.
Qed.

Lemma process_chat_sleeps_bounded_witness :
  exists extra,
    sleeps (snd first_turn) = sleeps empty_world ++ extra /\
    (extra = [] \/ extra = [5] \/ extra = [5; 10]) /\
    list_sum extra <= 15.
Proof.
  apply (@process_chat_sleeps_bounded (sample_env no_fault) "s1" "hi" empty_world
           (snd first_turn) (fst first_turn)).
  reflexivity.
Defined.

(* ------------------------------------------------------------------ *)
(** ** What a turn stores *)

Lemma find_session_none (session_id : string) (d : Database) :
  find_session session_id d = None -> has_session d session_id = false.
Proof.
  unfold find_session, has_session. induction (sessions d) as [|s l IH]; simpl.
  - reflexivity.
  - destruct (String.eqb (sess_id s) session_id); [discriminate | exact IH].
Qed.

Lemma find_session_some (session_id : string) (d : Database) (s : Session) :
  find_session session_id d = Some s ->
  has_session d session_id = true /\ In s (sessions d) /\ sess_id s = session_id.
Proof.
  unfold find_session, has_session. induction (sessions d) as [|x l IH]; simpl.
  - discriminate.
  - destruct (String.eqb (sess_id x) session_id) eqn:E.
    + intro H. inversion H; subst. apply String.eqb_eq in E. auto.
    + intro H. destruct (IH H) as (H1 & H2 & H3). auto.
Qed.

(** Stage 1 on a session that is not in the store, with the store up. *)
Lemma ensure_session_new (env : Env) (session_id : string) (w : World) :
  pending w = [] ->
  find_session session_id (db w) = None ->
  fault env (calls w) = None ->
  fault env (S (calls w)) = None ->
  ensure_session env session_id w
  = (Ok "",
     mkWorld
       (mkDatabase (sessions (db w) ++ [mkSession session_id (now w) None])
          (messages (db w)) (documents (db w)) (document_chunks (db w)))
       [] (S (now w)) (next_id w) (next_document_id w) (next_chunk_id w)
       (S (S (calls w))) (sleeps w) (tasks w)).
Proof.
  intros P N F0 F1. pose proof (find_session_none _ _ N) as HS.
  cbv [ensure_session db_execute db_add db_commit await bind modify get ret].
  rewrite F0. cbn [db tick calls]. rewrite N.
  world_step. rewrite F1.
  world_step. rewrite P.
  cbn [app flush insert_row]. rewrite HS. reflexivity.
Qed.

(** Stage 1 on a session of the store. *)
Lemma ensure_session_known (env : Env) (session_id : string) (w : World)
  (s : Session) :
  find_session session_id (db w) = Some s ->
  fault env (calls w) = None ->
  ensure_session env session_id w
  = (Ok (match sess_summary s with Some t => t | None => "" end), tick w).
Proof.
  intros N F0.
  cbv [ensure_session db_execute await bind get ret].
  rewrite F0. cbn [db tick calls]. now rewrite N.
Qed.

(** Stages 2 and 7 with the store up. *)
Lemma save_message_stored (env : Env) (session_id role content : string)
  (w : World) :
  pending w = [] ->
  has_session (db w) session_id = true ->
  fault env (calls w) = None ->
  save_message env session_id role content w
  = (Ok tt,
     mkWorld
       (mkDatabase (sessions (db w))
          (messages (db w)
           ++ [mkMessage (next_id w) session_id role content (now w)])
          (documents (db w)) (document_chunks (db w)))
       [] (S (now w)) (S (next_id w)) (next_document_id w) (next_chunk_id w)
       (S (calls w)) (sleeps w) (tasks w)).
Proof.
  intros P HS F.
  cbv [save_message db_add db_commit await bind modify ret].
  world_step. rewrite F.
  world_step. rewrite P.
  cbn [app flush insert_row]. rewrite HS. reflexivity.
Qed.

Lemma has_session_app (d : Database) (session_id : string) (t : nat)
  (summary : option string) (ms : list Message) (ds : list Document)
  (cs : list DocumentChunk) :
  has_session
    (mkDatabase (sessions d ++ [mkSession session_id t summary]) ms ds cs)
    session_id = true.
Proof.
  unfold has_session. cbn [sessions]. rewrite existsb_app. simpl.
  rewrite String.eqb_refl. now rewrite orb_true_r.
Qed.

Lemma read_history_up (env : Env) (session_id : string) (w : World) :
  fault env (calls w) = None ->
  read_history env session_id w
  = (Ok (rev (last_messages 6 session_id (db w))), tick w).
Proof.
  intro F. cbv [read_history db_execute await bind get ret]. now rewrite F.
Qed.

Lemma retrieve_context_returns (env : Env) (session_id user_query : string)
  (w : World) :
  exists text w',
    retrieve_context env session_id user_query w = (Ok text, w') /\
    same_but_calls w w'.
Proof.
  destruct (try_except_ret_total
              (relevant_chunks <- retrieve_chunks env session_id user_query;;
               match relevant_chunks with
               | [] => ret "No relevant documents found."
               | _ => ret (join (nl ++ nl)%string
                             (map (fun chunk =>
                                     ("[Chunk]: " ++ chunk_content chunk)%string)
                                relevant_chunks))
               end)
              "Error retrieving context." w) as (text & w' & H).
  exists text, w'. split; [exact H|].
  eapply retrieve_context_same_but_calls. exact H.
Qed.

(** The rest of a turn once the user message is stored: stages 3 to 8 with
    every collaborator up. *)
Lemma turn_completes (env : Env) (session_id user_query summary : string)
  (w : World) (llm : LLM) :
  (forall k, fault env k = None) ->
  get_llm env = Ok llm ->
  pending w = [] ->
  has_session (db w) session_id = true ->
  exists reply k st w',
    (context_text <- retrieve_context env session_id user_query;;
     history_records <- read_history env session_id;;
     ret (summary, context_text, history_records)) w
    = (Ok (summary, fst (snd st), snd (snd st)), fst st) /\
    reply = completion env k llm
              (build_messages (fst (snd st)) summary (snd (snd st))) /\
    generate env (build_messages (fst (snd st)) summary (snd (snd st)))
      (fst st)
    = (Ok reply, tick (fst st)) /\
    same_but_calls w (fst st) /\
    (save_message env session_id "assistant" reply;;
     modify (add_task session_id);;
     ret reply) (tick (fst st))
    = (Ok reply, w') /\
    db w' = mkDatabase (sessions (db w))
              (messages (db w)
               ++ [mkMessage (next_id w) session_id "assistant" reply (now w)])
              (documents (db w)) (document_chunks (db w)) /\
    pending w' = [] /\
    tasks w' = tasks w ++ [session_id] /\
    sleeps w' = sleeps w.
Proof.
  intros F L P HS.
  destruct (retrieve_context_returns env session_id user_query w)
    as (context & w3 & R & SC).
  pose proof SC as (D & P3 & N3 & I3 & S3 & T3 & ND3 & NC3).
  set (history := rev (last_messages 6 session_id (db w3))).
  set (reply := completion env (calls (tick w3)) llm
                  (build_messages context summary history)).
  exists reply, (calls (tick w3)), (tick w3, (context, history)).
  cbn [fst snd].
  eexists. split.
  { unfold bind at 1. rewrite R. unfold bind at 1.
    rewrite (read_history_up env session_id w3 (F _)). reflexivity. }
  split; [reflexivity|]. split.
  { apply generate_first_try; [exact L | apply F]. }
  split.
  { unfold same_but_calls in *. cbn. tauto. }
  assert (save_message env session_id "assistant" reply (tick (tick w3))
          = (Ok tt,
             mkWorld
               (mkDatabase (sessions (db w))
                  (messages (db w)
                   ++ [mkMessage (next_id w) session_id "assistant" reply (now w)])
                  (documents (db w)) (document_chunks (db w)))
               [] (S (now w)) (S (next_id w)) (next_document_id w)
               (next_chunk_id w) (S (calls (tick (tick w3))))
               (sleeps w) (tasks w))) as SM.
  { rewrite save_message_stored; cbn [pending db tick];
      [ | now rewrite P3 | now rewrite D | apply F ].
    cbn [tick db now next_id next_document_id next_chunk_id sleeps tasks calls].
    now rewrite D, N3, I3, S3, T3, ND3, NC3. }
  split.
  { unfold bind at 1. rewrite SM. cbv [bind modify ret]. reflexivity. }
  cbn. auto.
Qed.

(** X9. The first turn on a session that is not yet in the store, with
    every collaborator up and the model client available: the turn returns
    the answer of the model, creates the session row with no summary, stores
    the user message and then the assistant message, schedules one
    consolidation of the session and does not sleep. *)
Theorem first_turn_creates_session (env : Env) (session_id user_query : string)
  (w : World) (llm : LLM) :
  (forall k, fault env k = None) ->
  get_llm env = Ok llm ->
  pending w = [] ->
  find_session session_id (db w) = None ->
  exists reply k prompt w',
    process_chat env session_id user_query w = (Ok reply, w') /\
    reply = completion env k llm prompt /\
    sessions (db w') = sessions (db w) ++ [mkSession session_id (now w) None] /\
    messages (db w')
    = messages (db w)
      ++ [mkMessage (next_id w) session_id "user" user_query (S (now w));
          mkMessage (S (next_id w)) session_id "assistant" reply (S (S (now w)))] /\
    documents (db w') = documents (db w) /\
    document_chunks (db w') = document_chunks (db w) /\
    pending w' = [] /\
    tasks w' = tasks w ++ [session_id] /\
    sleeps w' = sleeps w.
Proof.
  intros F L P N.
  pose proof (ensure_session_new env session_id w P N (F _) (F _)) as E1.
  set (w1 := mkWorld
       (mkDatabase (sessions (db w) ++ [mkSession session_id (now w) None])
          (messages (db w)) (documents (db w)) (document_chunks (db w)))
       [] (S (now w)) (next_id w) (next_document_id w) (next_chunk_id w)
       (S (S (calls w))) (sleeps w) (tasks w)) in *.
  pose proof (save_message_stored env session_id "user" user_query w1
                eq_refl (has_session_app _ _ _ _ _ _ _) (F _)) as E2.
  cbn [w1 db sessions messages documents document_chunks next_id
       next_document_id next_chunk_id now calls
       sleeps tasks] in E2.
  match type of E2 with _ = (_, ?x) => set (w2 := x) in * end.
  destruct (@turn_completes env session_id user_query "" w2 llm F L eq_refl
              (has_session_app _ _ _ _ _ _ _))
    as (reply & k & [w3 [context history]] & w' & PT & Hr & G & SC & Fin & D & Pn & T & Sl).
  cbn [fst snd] in *.
  exists reply, k, (build_messages context "" history), w'.
  split.
  { unfold process_chat, try_except, process_chat_body, prepare_turn.
    unfold bind at 1. unfold bind at 1. rewrite E1.
    unfold bind at 1. rewrite E2. rewrite PT.
    unfold bind at 1. rewrite G. rewrite Fin. reflexivity. }
  split; [exact Hr|]. rewrite D, Pn, T, Sl. cbn.
  rewrite <- app_assoc. repeat split.
Qed.

Lemma first_turn_creates_session_witness :
  exists reply k prompt w',
    process_chat (sample_env no_fault) "s1" "hi" empty_world = (Ok reply, w') /\
    reply = completion (sample_env no_fault) k
              (mkLLM "gemini" "gemini-2.0-flash" 7) prompt /\
    sessions (db w')
    = sessions (db empty_world) ++ [mkSession "s1" (now empty_world) None] /\
    messages (db w')
    = messages (db empty_world)
      ++ [mkMessage (next_id empty_world) "s1" "user" "hi" (S (now empty_world));
          mkMessage (S (next_id empty_world)) "s1" "assistant" reply
            (S (S (now empty_world)))] /\
    documents (db w') = documents (db empty_world) /\
    document_chunks (db w') = document_chunks (db empty_world) /\
    pending w' = [] /\
    tasks w' = tasks empty_world ++ ["s1"] /\
    sleeps w' = sleeps empty_world.
Proof.
  apply (@first_turn_creates_session (sample_env no_fault) "s1" "hi" empty_world
           (mkLLM "gemini" "gemini-2.0-flash" 7)); reflexivity.
Defined.

(** X10. A further turn on a session of the store, with every collaborator
    up: the summary stored for the session (the empty string when there is
    none) is the summary of the system prompt sent to the model; the turn
    leaves the session rows as they are and stores the user message and then
    the assistant message. *)
Theorem further_turn_uses_summary (env : Env) (session_id user_query : string)
  (w : World) (llm : LLM) (s : Session) :
  (forall k, fault env k = None) ->
  get_llm env = Ok llm ->
  pending w = [] ->
  find_session session_id (db w) = Some s ->
  exists reply k context history w',
    process_chat env session_id user_query w = (Ok reply, w') /\
    reply = completion env k llm
              (SystemMessage
                 (system_prompt context
                    (match sess_summary s with Some t => t | None => "" end))
               :: flat_map history_message history) /\
    sessions (db w') = sessions (db w) /\
    messages (db w')
    = messages (db w)
      ++ [mkMessage (next_id w) session_id "user" user_query (now w);
          mkMessage (S (next_id w)) session_id "assistant" reply (S (now w))] /\
    tasks w' = tasks w ++ [session_id].
Proof.
  intros F L P N.
  destruct (find_session_some _ _ N) as (HS & _ & _).
  pose proof (ensure_session_known env session_id w N (F _)) as E1.
  pose proof (save_message_stored env session_id "user" user_query (tick w)
                P HS (F _)) as E2.
  cbn [tick db sessions messages documents document_chunks next_id now calls
       sleeps tasks] in E2.
  match type of E2 with _ = (_, ?x) => set (w2 := x) in * end.
  set (summary := match sess_summary s with Some t => t | None => "" end) in *.
  destruct (@turn_completes env session_id user_query summary w2 llm F L eq_refl HS)
    as (reply & k & [w3 [context history]] & w' & PT & Hr & G & SC & Fin & D & Pn & T & Sl).
  cbn [fst snd] in *.
  exists reply, k, context, history, w'.
  split.
  { unfold process_chat, try_except, process_chat_body, prepare_turn.
    unfold bind at 1. unfold bind at 1. rewrite E1.
    unfold bind at 1. rewrite E2. rewrite PT.
    unfold bind at 1. rewrite G. rewrite Fin. reflexivity. }
  split; [exact Hr|]. rewrite D, T. cbn.
  rewrite <- app_assoc. repeat split.
Qed.

Lemma further_turn_uses_summary_witness :
  exists reply k context history w',
    process_chat (sample_env no_fault) "s2" "and whales?" library_world
    = (Ok reply, w') /\
    reply = completion (sample_env no_fault) k
              (mkLLM "gemini" "gemini-2.0-flash" 7)
              (SystemMessage (system_prompt context "About whales.")
               :: flat_map history_message history) /\
    sessions (db w') = sessions (db library_world) /\
    messages (db w')
    = messages (db library_world)
      ++ [mkMessage (next_id library_world) "s2" "user" "and whales?"
            (now library_world);
          mkMessage (S (next_id library_world)) "s2" "assistant" reply
            (S (now library_world))] /\
    tasks w' = tasks library_world ++ ["s2"].
Proof.
  apply (@further_turn_uses_summary (sample_env no_fault) "s2" "and whales?"
           library_world (mkLLM "gemini" "gemini-2.0-flash" 7)
           (mkSession "s2" 1 (Some "About whales."))); reflexivity.
Defined.

Lemma In_extends_messages (d d' : Database) (m : Message) :
  extends d d' -> In m (messages d) -> In m (messages d').
Proof.
  intros (_ & (rows & E) & _) H. rewrite E. apply in_or_app. now left.
Qed.

Lemma save_message_append_only (env : Env) (session_id role content : string) :
  preserves append_only (save_message env session_id role content).
Proof.
  pose proof (db_commit_append_only env) as C.
  unfold save_message, db_add.
  frame ltac:(first [ exact C | append_side ]).
Qed.

(** X11. Once stages 1 and 2 of a turn have succeeded from an empty unit of
    work, the user message is in the store at the end of the turn, whatever
    the later stages do: the question is kept even when the turn ends with
    the apology. *)
Theorem user_message_is_durable (env : Env) (session_id user_query : string)
  (w w1 w2 w' : World) (summary : string) (r : Result string) :
  pending w = [] ->
  ensure_session env session_id w = (Ok summary, w1) ->
  save_message env session_id "user" user_query w1 = (Ok tt, w2) ->
  process_chat env session_id user_query w = (r, w') ->
  In (mkMessage (next_id w1) session_id "user" user_query (now w1))
     (messages (db w')).
Proof.
  intros P E1 E2 H.
  destruct (@ensure_session_ok env session_id w w1 summary P E1) as (P1 & _ & _).
  pose proof (@save_message_ok env session_id "user" user_query w1 w2 P1 E2) as M2.
  assert (In (mkMessage (next_id w1) session_id "user" user_query (now w1))
            (messages (db w2))) as I2
    by (rewrite M2; apply in_or_app; right; now left).
  assert (extends (db w2) (db w')) as X; [|eapply In_extends_messages; eauto].
  unfold process_chat, try_except, process_chat_body in H.
  unfold bind at 1 in H.
  destruct (prepare_turn env session_id user_query w) as [p w3] eqn:PT.
  unfold prepare_turn in PT. unfold bind at 1 in PT. rewrite E1 in PT.
  unfold bind at 1 in PT. rewrite E2 in PT.
  assert (db w3 = db w2) as D3.
  { assert (preserves same_store
              (context_text <- retrieve_context env session_id user_query;;
               history_records <- read_history env session_id;;
               ret (summary, context_text, history_records))) as Fr.
    { pose proof (@retrieve_context_same_store env session_id user_query) as R.
      pose proof (@read_history_same_store env session_id) as Hh.
      frame ltac:(first [ exact R | exact Hh | store_side ]). }
    apply Fr in PT. apply PT. }
  destruct p as [[[s0 c0] h0]|e]; [|inversion H; subst; rewrite D3; apply extends_refl].
  unfold bind at 1 in H.
  destruct (generate env (build_messages c0 s0 h0) w3) as [[text|e] w4] eqn:G;
    apply generate_same_store in G; destruct G as [D4 _];
    [|inversion H; subst; rewrite D4, D3; apply extends_refl].
  unfold bind at 1 in H.
  destruct (save_message env session_id "assistant" text w4) as [[u|e] w5] eqn:S5;
    apply save_message_append_only in S5; unfold append_only in S5;
    rewrite D4, D3 in S5.
  - cbv [bind modify ret] in H. inversion H; subst. exact S5.
  - inversion H; subst. exact S5.
Qed.

Lemma user_message_is_durable_witness :
  In (mkMessage (next_id (snd quota_stage1)) "s1" "user" "hi"
        (now (snd quota_stage1)))
     (messages (db (snd quota_run))).
Proof.
  apply (@user_message_is_durable (sample_env (quota_from 6)) "s1" "hi"
           empty_world (snd quota_stage1) (snd quota_stage2) (snd quota_run)
           "" (fst quota_run)); reflexivity.
Defined.

(* ------------------------------------------------------------------ *)
(** ** What an upload stores *)

Lemma read_content_same_but_calls (env : Env) (file : UploadFile) (name : string) :
  preserves same_but_calls (read_content env file name).
Proof. unfold read_content, file_read. frame calls_side. Qed.

Lemma find_fresh_document (docs : list Document) (x : Document) :
  (forall d, In d docs -> doc_id d < doc_id x) ->
  find (fun d => Nat.eqb (doc_id d) (doc_id x)) (docs ++ [x]) = Some x.
Proof.
  induction docs as [|d docs IH]; intro H; simpl.
  - now rewrite Nat.eqb_refl.
  - assert (doc_id d < doc_id x) as Hd by (apply H; now left).
    apply Nat.lt_neq in Hd. apply Nat.eqb_neq in Hd. rewrite Hd.
    apply IH. intros y Hy. apply H. now right.
Qed.

Lemma has_document_app (docs : list Document) (x : Document)
  (ss : list Session) (ms : list Message) (cs : list DocumentChunk) :
  has_document (mkDatabase ss ms (docs ++ [x]) cs) (doc_id x) = true.
Proof.
  unfold has_document. cbn [documents]. rewrite existsb_app. simpl.
  rewrite Nat.eqb_refl. now rewrite orb_true_r.
Qed.

(** The flush of the chunk rows of a stored Document. *)
Lemma flush_chunks (t document_id : nat) (pairs : list (string * vector)) :
  forall (d : Database) (n : Serials),
    has_document d document_id = true ->
    exists ids,
      flush t (map (fun cv => NewDocumentChunk document_id (fst cv) (snd cv)) pairs)
        d n
      = (Some (mkDatabase (sessions d) (messages d) (documents d)
                 (document_chunks d
                  ++ chunk_rows (chunk_serial n) document_id pairs),
               ids),
         mkSerials (message_serial n) (document_serial n)
           (chunk_serial n + List.length pairs)).
Proof.
  induction pairs as [|p pairs IH]; intros d n H.
  - exists []. simpl. rewrite app_nil_r, Nat.add_0_r. now destruct d, n.
  - cbn [map flush insert_row]. rewrite H.
    destruct (IH (mkDatabase (sessions d) (messages d) (documents d)
                    (document_chunks d
                     ++ [mkDocumentChunk (chunk_serial n) document_id (fst p) (snd p)]))
                 (mkSerials (message_serial n) (document_serial n)
                    (S (chunk_serial n))) H) as [ids E].
    rewrite E. eexists. cbn. rewrite <- app_assoc.
    replace (S (chunk_serial n + List.length pairs))
      with (chunk_serial n + S (List.length pairs)) by lia.
    reflexivity.
Qed.

(** X12. An upload that goes through, on a store whose document keys are
    below the next value of the sequence of [documents.id]: the Document is
    stored with the whole text under that value, and one chunk row is stored
    for each pair of a chunk of the splitter and the vector at the same
    position, with the text, the vector and the key of the Document, under
    consecutive values of the sequence of [document_chunks.id]; the upload
    returns the Document, writes no session and no message and leaves the
    unit of work empty. *)
Theorem upload_stores_chunks (env : Env) (file : UploadFile)
  (session_id content : string) (w w1 : World) (svc : Embeddings) :
  read_content env file (upload_filename file) w = (Ok content, w1) ->
  nonempty (strip content) = true ->
  pending w = [] ->
  has_session (db w) session_id = true ->
  (forall d, In d (documents (db w)) -> doc_id d < next_document_id w) ->
  RecursiveCharacterTextSplitter env 800 100 content <> [] ->
  get_embeddings_service env = Ok svc ->
  fault env (calls w1) = None ->
  fault env (S (calls w1)) = None ->
  fault env (S (S (calls w1))) = None ->
  fault env (S (S (S (calls w1)))) = None ->
  exists w',
    let doc := mkDocument (next_document_id w) session_id (upload_filename file)
                 content (now w) in
    let chunks := RecursiveCharacterTextSplitter env 800 100 content in
    process_file env file session_id w = (Ok doc, w') /\
    documents (db w') = documents (db w) ++ [doc] /\
    document_chunks (db w')
    = document_chunks (db w)
      ++ chunk_rows (next_chunk_id w) (next_document_id w)
           (combine chunks (document_embeddings env chunks)) /\
    sessions (db w') = sessions (db w) /\
    messages (db w') = messages (db w) /\
    pending w' = [] /\
    next_id w' = next_id w /\
    next_document_id w' = S (next_document_id w) /\
    next_chunk_id w'
    = next_chunk_id w
      + List.length (combine chunks (document_embeddings env chunks)).
Proof.
  intros R N P HS Fresh C G F0 F1 F2 F3.
  pose proof (@read_content_same_but_calls env file _ _ _ _ R)
    as (D & P1 & N1 & I1 & _ & _ & ND1 & NC1).
  rewrite <- D in HS, Fresh. rewrite <- P1 in P. rewrite <- ND1 in Fresh.
  rewrite <- D, <- I1, <- N1, <- ND1, <- NC1.
  cbv zeta.
  destruct (RecursiveCharacterTextSplitter env 800 100 content) as [|c cs] eqn:Ec;
    [contradiction|].
  set (doc := mkDocument (next_document_id w1) session_id (upload_filename file)
                content (now w1)).
  pose proof (@find_fresh_document (documents (db w1)) doc Fresh) as Hfind.
  cbn [doc_id doc] in Hfind.
  set (pairs := combine (c :: cs) (document_embeddings env (c :: cs))).
  destruct (@flush_chunks (S (now w1)) (next_document_id w1) pairs
              (mkDatabase (sessions (db w1)) (messages (db w1))
                 (documents (db w1) ++ [doc]) (document_chunks (db w1)))
              (mkSerials (next_id w1) (S (next_document_id w1)) (next_chunk_id w1))
              (has_document_app _ doc _ _ _)) as [ids Fl].
  eexists. split.
  - unfold process_file, bind. rewrite R, N. cbv beta iota. cbn [negb].
    cbv [store_document try_except bind db_add db_add_all db_commit serials
         db_refresh_document aembed_documents await lift modify get ret raise].
    world_step. rewrite F0.
    world_step. rewrite P.
    cbn [app flush insert_row]. rewrite HS.
    commit_step.
    rewrite F1.
    commit_step.
    fold doc. rewrite Hfind. rewrite Ec. rewrite G.
    commit_step.
    rewrite F2.
    commit_step.
    rewrite F3.
    commit_step.
    fold pairs. change (doc_id doc) with (next_document_id w1).
    cbn [sessions messages documents document_chunks message_serial
         document_serial chunk_serial] in Fl.
    rewrite Fl. reflexivity.
  - cbn. repeat split; reflexivity.
Qed.

Lemma upload_stores_chunks_witness :
  exists w',
    let doc := mkDocument (next_document_id session_world) "s1" "notes.txt" "a b"
                 (now session_world) in
    let chunks := RecursiveCharacterTextSplitter (sample_env no_fault) 800 100 "a b" in
    process_file (sample_env no_fault)
      (mkUploadFile (Some "notes.txt") [x61; x20; x62]) "s1" session_world
    = (Ok doc, w') /\
    documents (db w') = documents (db session_world) ++ [doc] /\
    document_chunks (db w')
    = document_chunks (db session_world)
      ++ chunk_rows (next_chunk_id session_world) (next_document_id session_world)
           (combine chunks (document_embeddings (sample_env no_fault) chunks)) /\
    sessions (db w') = sessions (db session_world) /\
    messages (db w') = messages (db session_world) /\
    pending w' = [] /\
    next_id w' = next_id session_world /\
    next_document_id w' = S (next_document_id session_world) /\
    next_chunk_id w'
    = next_chunk_id session_world
      + List.length (combine chunks
                       (document_embeddings (sample_env no_fault) chunks)).
Proof.
  apply (@upload_stores_chunks (sample_env no_fault)
           (mkUploadFile (Some "notes.txt") [x61; x20; x62]) "s1" "a b"
           session_world (tick session_world)
           (GoogleGenerativeAIEmbeddings "models/text-embedding-004"));
    try reflexivity.
  - intros d [].
  - discriminate.
Defined.

(** X14. An upload to a session that is not in the store fails at the
    commit of the Document, on the foreign key of [documents.session_id]:
    with the rollback succeeding, the caller gets a 500 error and the store
    and the unit of work are as before the upload. *)
Theorem upload_to_unknown_session (env : Env) (file : UploadFile)
  (session_id content : string) (w w1 : World) :
  read_content env file (upload_filename file) w = (Ok content, w1) ->
  nonempty (strip content) = true ->
  pending w = [] ->
  has_session (db w) session_id = false ->
  fault env (calls w1) = None ->
  fault env (S (calls w1)) = None ->
  exists detail w',
    process_file env file session_id w = (Raise (HTTPException 500 detail), w') /\
    db w' = db w /\
    pending w' = [].
Proof.
  intros R N P HS F0 F1.
  pose proof (@read_content_same_but_calls env file _ _ _ _ R)
    as (D & P1 & _).
  rewrite <- D in HS. rewrite <- P1 in P. rewrite <- D.
  eexists. eexists. split.
  - unfold process_file, bind. rewrite R, N. cbv beta iota. cbn [negb].
    cbv [store_document try_except bind db_add db_commit db_rollback
         await lift modify get ret raise].
    world_step. rewrite F0.
    world_step. rewrite P.
    cbn [app flush insert_row]. rewrite HS.
    world_step. rewrite F1.
    reflexivity.
  - cbn. auto.
Qed.

Lemma upload_to_unknown_session_witness :
  exists detail w',
    process_file (sample_env no_fault)
      (mkUploadFile (Some "notes.txt") [x61; x20; x62]) "s9" session_world
    = (Raise (HTTPException 500 detail), w') /\
    db w' = db session_world /\
    pending w' = [].
Proof.
  apply (@upload_to_unknown_session (sample_env no_fault)
           (mkUploadFile (Some "notes.txt") [x61; x20; x62]) "s9" "a b"
           session_world (tick session_world));
    reflexivity.
Defined.

Lemma isspace_codes (c : ascii) :
  In (nat_of_ascii c) [9; 10; 11; 12; 13; 28; 29; 30; 31; 32; 133; 160] ->
  isspace c = true.
Proof.
  unfold isspace. cbv zeta. intro H.
  repeat (destruct H as [<-|H]; [reflexivity|]). destruct H.
Qed.

Lemma lstrip_blank (s : string) :
  Forall (fun c => isspace c = true) (list_ascii_of_string s) -> lstrip s = "".
Proof.
  induction s as [|c s IH]; simpl; intro H; [reflexivity|].
  inversion H as [|? ? Hc Hs]; subst. rewrite Hc. now apply IH.
Qed.

(** X15. An upload whose text is empty or made only of white space of the
    code points below 256 (the controls 9 to 13 and 28 to 31, the space, the
    next-line control U+0085 and the no-break space U+00A0), be it a text
    file or a PDF, is refused with the 400 empty-content error before
    anything is handed to the store. *)
Theorem blank_upload_rejected (env : Env) (file : UploadFile)
  (session_id content : string) (w w1 : World) :
  read_content env file (upload_filename file) w = (Ok content, w1) ->
  Forall (fun c => In (nat_of_ascii c)
                     [9; 10; 11; 12; 13; 28; 29; 30; 31; 32; 133; 160])
    (list_ascii_of_string content) ->
  process_file env file session_id w
  = (Raise (HTTPException 400 "File content is empty or could not be extracted."),
     w1) /\
  db w1 = db w /\
  pending w1 = pending w.
Proof.
  intros R B.
  assert (nonempty (strip content) = false) as N.
  { unfold strip. rewrite lstrip_blank; [reflexivity|].
    eapply Forall_impl; [|exact B]. intros c Hc. now apply isspace_codes. }
  pose proof (@read_content_same_but_calls env file _ _ _ _ R) as (D & P1 & _).
  split; [|auto].
  unfold process_file, bind. rewrite R, N. reflexivity.
Qed.

Lemma blank_upload_rejected_witness :
  process_file (sample_env no_fault)
    (mkUploadFile (Some "blank.txt") [x20; x0a; xc2; xa0]) "s1" session_world
  = (Raise (HTTPException 400 "File content is empty or could not be extracted."),
     tick session_world) /\
  db (tick session_world) = db session_world /\
  pending (tick session_world) = pending session_world.
Proof.
  apply (@blank_upload_rejected (sample_env no_fault)
           (mkUploadFile (Some "blank.txt") [x20; x0a; xc2; xa0]) "s1"
           (String (ascii_of_nat 32) (String (ascii_of_nat 10)
              (String (ascii_of_nat 160) "")))
           session_world (tick session_world)).
  - reflexivity.
  - apply Forall_forall. simpl. intros c [<-|[<-|[<-|[]]]]; simpl; tauto.
Defined.

(* ------------------------------------------------------------------ *)
(** ** The [/upload] route *)

(** How the second [try] block of [process_file] can fail: with its 500
    error, or with the exception of a failed rollback. *)
Lemma store_document_failure (env : Env) (session_id name content : string)
  (w w' : World) (e : exn) :
  store_document env session_id name content w = (Raise e, w') ->
  (exists e0, e = error_processing_file e0) \/ (exists k, fault env k = Some e).
Proof.
  intro H. unfold store_document, try_except in H.
  match type of H with
  | (let (_, _) := ?x in _) = _ => destruct x as [[d|e0] wb]
  end; [discriminate|].
  cbv [db_rollback await bind modify raise] in H.
  destruct (fault env (calls wb)) as [e1|] eqn:F; inversion H; subst; eauto.
Qed.

(** How [process_file] can fail: with a 400 error before anything is handed
    to the store, with its 500 error, or with the exception of a failed
    rollback. *)
Lemma process_file_failure (env : Env) (file : UploadFile) (session_id : string)
  (w w' : World) (e : exn) :
  process_file env file session_id w = (Raise e, w') ->
  ((exists detail, e = HTTPException 400 detail) /\
   db w' = db w /\ pending w' = pending w)
  \/ (exists e0, e = error_processing_file e0)
  \/ (exists k, fault env k = Some e).
Proof.
  intro H. unfold process_file in H. unfold bind at 1 in H.
  destruct (read_content env file (upload_filename file) w) as [[content|e1] w1] eqn:R.
  - pose proof (@read_content_same_but_calls env file _ _ _ _ R) as (D & P & _).
    destruct (negb (nonempty (strip content))).
    + inversion H; subst. left. unfold empty_content. eauto.
    + right. eapply store_document_failure. exact H.
  - pose proof (@read_content_same_but_calls env file _ _ _ _ R) as (D & P & _).
    inversion H; subst. left. split; [|auto].
    unfold read_content, try_except in R.
    match type of R with
    | (let (_, _) := ?x in _) = _ => destruct x as [[c|e0] wb]
    end; [discriminate|].
    inversion R; subst. unfold error_reading_file. eauto.
Qed.

(** X16. With collaborators that do not raise FastAPI's own exception, the
    [/upload] route answers with its confirmation, which carries the file
    name or ["unknown"], or fails with an HTTP error whose status is 400 or
    500; when the status is 400, the store and the unit of work are as
    before the request. *)
Theorem upload_endpoint_statuses (env : Env) (file : UploadFile)
  (session_id : string) (w w' : World) (r : Result UploadResponse) :
  no_http_fault env ->
  upload_endpoint env file session_id w = (r, w') ->
  match r with
  | Ok answer =>
      answer = mkUploadResponse (upload_filename file) session_id
                 "File uploaded and processed successfully."
  | Raise e =>
      exists detail,
        (e = HTTPException 400 detail /\ db w' = db w /\ pending w' = pending w)
        \/ e = HTTPException 500 detail
  end.
Proof.
  intros NH H. unfold upload_endpoint, try_except in H. unfold bind at 1 in H.
  destruct (process_file env file session_id w) as [[doc|e] w1] eqn:P.
  - inversion H; subst. reflexivity.
  - apply process_file_failure in P.
    destruct P as [[[detail ->] [D Pn]]|[[e0 ->]|[k F]]].
    + inversion H; subst. exists detail. left. auto.
    + inversion H; subst. unfold error_processing_file. eexists. right. reflexivity.
    + destruct e as [status detail|cls msg].
      * exfalso. exact (NH k status detail F).
      * inversion H; subst. eexists. right. reflexivity.
Qed.

Lemma sample_env_no_http_fault : no_http_fault (sample_env (fault_at 3 provider_down)).
Proof.
  intros k status detail. cbn. unfold fault_at.
  destruct (k =? 3)%nat; discriminate.
Qed.

Lemma upload_endpoint_statuses_witness :
  match fst upload_failure with
  | Ok answer =>
      answer = mkUploadResponse "notes.txt" "s1"
                 "File uploaded and processed successfully."
  | Raise e =>
      exists detail,
        (e = HTTPException 400 detail /\
         db (snd upload_failure) = db session_world /\
         pending (snd upload_failure) = pending session_world)
        \/ e = HTTPException 500 detail
  end.
Proof.
  apply (@upload_endpoint_statuses (sample_env (fault_at 3 provider_down))
           (mkUploadFile (Some "notes.txt") [x61; x20; x62]) "s1"
           session_world (snd upload_failure) (fst upload_failure)).
  - exact sample_env_no_http_fault.
  - reflexivity.
Defined.

(* ------------------------------------------------------------------ *)
(** ** What a consolidation writes *)

Lemma same_but_summary_refl (session_id : string) (d : Database) :
  same_but_summary session_id d d.
Proof. unfold same_but_summary. auto 10. Qed.

Lemma update_session_summary_same_but_summary (session_id new_summary : string)
  (d : Database) :
  same_but_summary session_id d (update_session_summary session_id new_summary d).
Proof.
  unfold same_but_summary, update_session_summary. cbn.
  repeat split.
  - rewrite map_map. apply map_ext. intro s.
    now destruct (String.eqb (sess_id s) session_id).
  - rewrite map_map. apply map_ext. intro s.
    now destruct (String.eqb (sess_id s) session_id).
  - intros s Hs Hne. apply in_map_iff. exists s. split; [|exact Hs].
    apply String.eqb_neq in Hne. now rewrite Hne.
Qed.

Lemma update_summary_body_frame (env : Env) (session_id : string) :
  preserves (fun w w' => pending w' = pending w /\ sleeps w' = sleeps w /\
                         tasks w' = tasks w /\ now w' = now w /\
                         next_id w' = next_id w)
    (update_summary_body env session_id).
Proof.
  unfold update_summary_body, db_execute, ainvoke.
  frame ltac:(solve [ intros; simpl in *; intuition congruence ]).
Qed.

(** X17. A consolidation run, however it ends, changes nothing in the store
    but the summary of its own session: the messages, the documents and the
    chunks are as before, the session rows keep their keys and creation
    times, and the rows of the other sessions are untouched.  It neither
    sleeps nor schedules a task nor touches a unit of work. *)
Theorem update_summary_touches_summary_only (env : Env) (session_id : string)
  (w w' : World) (r : Result unit) :
  update_summary env session_id w = (r, w') ->
  same_but_summary session_id (db w) (db w') /\
  pending w' = pending w /\ sleeps w' = sleeps w /\ tasks w' = tasks w.
Proof.
  intro H. unfold update_summary, try_except, ret in H.
  destruct (update_summary_body env session_id w) as [[u|e] w1] eqn:B;
    inversion H; subst; clear H;
    pose proof (@update_summary_body_frame env session_id _ _ _ B)
      as (P & S & T & _);
    (split; [|auto]);
    destruct (update_summary_body_spec _ _ _ B) as [[D _]|(_ & _ & s & D)];
    rewrite D;
    auto using same_but_summary_refl, update_session_summary_same_but_summary.
Qed.

Lemma update_summary_touches_summary_only_witness :
  same_but_summary "s1" (db library_world) (db (snd consolidation)) /\
  pending (snd consolidation) = pending library_world /\
  sleeps (snd consolidation) = sleeps library_world /\
  tasks (snd consolidation) = tasks library_world.
Proof.
  apply (@update_summary_touches_summary_only (sample_env no_fault) "s1"
           library_world (snd consolidation) (fst consolidation)).
  reflexivity.
Defined.

Lemma find_session_updated (session_id new_summary : string) (d : Database)
  (s : Session) :
  find_session session_id d = Some s ->
  find_session session_id (update_session_summary session_id new_summary d)
  = Some (mkSession (sess_id s) (sess_created_at s) (Some new_summary)).
Proof.
  unfold find_session, update_session_summary. cbn [sessions].
  induction (sessions d) as [|x l IH]; simpl; [discriminate|].
  destruct (String.eqb (sess_id x) session_id) eqn:E.
  - intro H. inversion H; subst. simpl. now rewrite E.
  - intro H. simpl. rewrite E. now apply IH.
Qed.

(** X18. A consolidation of a session of the store that has messages, with
    every collaborator up: the model is called at temperature 0.3 on one
    human message, the prompt built from the stored summary and the last 10
    messages in chronological order; its answer becomes the summary of the
    session, and it is the summary that the next turn of the session reads. *)
Theorem consolidation_feeds_next_turn (env : Env) (session_id : string)
  (w : World) (llm : LLM) (s : Session) :
  (forall k, fault env k = None) ->
  get_llm env = Ok llm ->
  find_session session_id (db w) = Some s ->
  session_messages (db w) session_id <> [] ->
  exists w',
    let new_summary :=
      completion env (S (S (calls w)))
        (mkLLM (llm_provider llm) (llm_model llm) 3)
        [HumanMessage
           (summary_prompt (sess_summary s)
              (rev (last_messages 10 session_id (db w))))] in
    update_summary env session_id w = (Ok tt, w') /\
    db w' = update_session_summary session_id new_summary (db w) /\
    find_session session_id (db w')
    = Some (mkSession (sess_id s) (sess_created_at s) (Some new_summary)) /\
    ensure_session env session_id w' = (Ok new_summary, tick w').
Proof.
  intros F L N M. cbv zeta.
  assert (rev (last_messages 10 session_id (db w)) <> []) as R.
  { intro E. apply M. exact (proj1 (@last_messages_nil_iff 9 session_id (db w)) E). }
  exists (set_db
            (update_session_summary session_id
               (completion env (S (S (calls w)))
                  (mkLLM (llm_provider llm) (llm_model llm) 3)
                  [HumanMessage
                     (summary_prompt (sess_summary s)
                        (rev (last_messages 10 session_id (db w))))])
               (db w))
            (tick (tick (tick (tick (tick w)))))).
  split; [|split; [|split]].
  - cbv [update_summary update_summary_body try_except db_execute ainvoke await
         bind lift get ret modify].
    rewrite (F (calls w)). cbn [db tick calls].
    destruct (rev (last_messages 10 session_id (db w))) as [|m recent] eqn:E;
      [contradiction|].
    cbn [db tick calls]. rewrite (F (S (calls w))). cbn [db tick calls].
    rewrite N, L. cbn [db tick calls].
    rewrite (F (S (S (calls w)))). cbn [db tick calls].
    rewrite (F (S (S (S (calls w))))). cbn [db tick calls].
    rewrite (F (S (S (S (S (calls w)))))). reflexivity.
  - reflexivity.
  - cbn [db set_db]. now apply find_session_updated.
  - eapply eq_trans;
      [ eapply ensure_session_known;
        [ cbn [db set_db]; apply find_session_updated; exact N | apply F ]
      | reflexivity ].
Qed.

Lemma consolidation_feeds_next_turn_witness :
  exists w',
    let new_summary :=
      completion (sample_env no_fault) (S (S (calls library_world)))
        (mkLLM (llm_provider (mkLLM "gemini" "gemini-2.0-flash" 7))
           (llm_model (mkLLM "gemini" "gemini-2.0-flash" 7)) 3)
        [HumanMessage
           (summary_prompt (sess_summary (mkSession "s1" 0 None))
              (rev (last_messages 10 "s1" (db library_world))))] in
    update_summary (sample_env no_fault) "s1" library_world = (Ok tt, w') /\
    db w' = update_session_summary "s1" new_summary (db library_world) /\
    find_session "s1" (db w')
    = Some (mkSession (sess_id (mkSession "s1" 0 None))
              (sess_created_at (mkSession "s1" 0 None)) (Some new_summary)) /\
    ensure_session (sample_env no_fault) "s1" w' = (Ok new_summary, tick w').
Proof.
  apply (@consolidation_feeds_next_turn (sample_env no_fault) "s1" library_world
           (mkLLM "gemini" "gemini-2.0-flash" 7) (mkSession "s1" 0 None));
    try reflexivity.
  discriminate.
Defined.

(* ------------------------------------------------------------------ *)
(** ** Settings and factories *)

(** X19. The embeddings factory gives a service in two cases only: the
    provider is [gemini] and a Google key is configured, or the provider is
    [openai] and an OpenAI key is configured.  In both, the dimension that
    the settings fix for the vector column is the dimension of the model the
    factory selects: 768 for Gemini's, 1536 for OpenAI's. *)
Theorem embeddings_service_matches_dimension (env : Env) (svc : Embeddings) :
  get_embeddings_service env = Ok svc ->
  (LLM_PROVIDER (settings env) = "gemini" /\
   configured (GOOGLE_API_KEY (settings env)) = true /\
   svc = GoogleGenerativeAIEmbeddings "models/text-embedding-004" /\
   EMBEDDING_DIMENSION (settings env) = 768)
  \/ (LLM_PROVIDER (settings env) = "openai" /\
      configured (OPENAI_API_KEY (settings env)) = true /\
      svc = OpenAIEmbeddings "text-embedding-3-small" /\
      EMBEDDING_DIMENSION (settings env) = 1536).
Proof.
  unfold get_embeddings_service, EMBEDDING_DIMENSION.
  destruct (String.eqb (LLM_PROVIDER (settings env)) "gemini") eqn:G.
  - apply String.eqb_eq in G.
    destruct (configured (GOOGLE_API_KEY (settings env))); simpl; [|discriminate].
    intro H. inversion H. left. auto.
  - destruct (String.eqb (LLM_PROVIDER (settings env)) "openai") eqn:O;
      [|discriminate].
    apply String.eqb_eq in O.
    destruct (configured (OPENAI_API_KEY (settings env))); simpl; [|discriminate].
    intro H. inversion H. right. auto.
Qed.

Lemma embeddings_service_matches_dimension_witness :
  (LLM_PROVIDER (settings (sample_env no_fault)) = "gemini" /\
   configured (GOOGLE_API_KEY (settings (sample_env no_fault))) = true /\
   GoogleGenerativeAIEmbeddings "models/text-embedding-004"
   = GoogleGenerativeAIEmbeddings "models/text-embedding-004" /\
   EMBEDDING_DIMENSION (settings (sample_env no_fault)) = 768)
  \/ (LLM_PROVIDER (settings (sample_env no_fault)) = "openai" /\
      configured (OPENAI_API_KEY (settings (sample_env no_fault))) = true /\
      GoogleGenerativeAIEmbeddings "models/text-embedding-004"
      = OpenAIEmbeddings "text-embedding-3-small" /\
      EMBEDDING_DIMENSION (settings (sample_env no_fault)) = 1536).
Proof.
  apply (@embeddings_service_matches_dimension (sample_env no_fault)
           (GoogleGenerativeAIEmbeddings "models/text-embedding-004")).
  reflexivity.
Defined.

(** X20. Settings read from an environment where [LLM_PROVIDER] is unset,
    or is [gemini] in any letter case, and where [GOOGLE_API_KEY] is unset
    or empty while [GEMINI_API_KEY] holds a key: the provider is Gemini, the
    key is taken from [GEMINI_API_KEY], the embeddings factory gives the
    Gemini service, the vector dimension is 768 and the chat model is the
    Gemini model of [GEMINI_MODEL] (by default [gemini-2.0-flash]) at
    temperature 0.7. *)
Theorem gemini_is_the_default (getenv : string -> option string) (env : Env)
  (key : string) :
  (getenv "LLM_PROVIDER" = None
   \/ exists v, getenv "LLM_PROVIDER" = Some v /\ lower v = "gemini") ->
  configured (getenv "GOOGLE_API_KEY") = false ->
  getenv "GEMINI_API_KEY" = Some key ->
  nonempty key = true ->
  GOOGLE_API_KEY (load_settings getenv) = Some key /\
  get_embeddings_service (with_settings (load_settings getenv) env)
  = Ok (GoogleGenerativeAIEmbeddings "models/text-embedding-004") /\
  EMBEDDING_DIMENSION (load_settings getenv) = 768 /\
  (llm_init env
     (mkLLM "gemini" (getenv_default getenv "GEMINI_MODEL" "gemini-2.0-flash") 7)
   = None ->
   get_llm (with_settings (load_settings getenv) env)
   = Ok (mkLLM "gemini" (getenv_default getenv "GEMINI_MODEL" "gemini-2.0-flash") 7)).
Proof.
  intros Hp Hg Hk Hn.
  assert (LLM_PROVIDER (load_settings getenv) = "gemini") as P.
  { unfold load_settings, getenv_default. cbn [LLM_PROVIDER].
    destruct Hp as [->|(v & -> & Hv)]; [reflexivity | exact Hv]. }
  assert (GOOGLE_API_KEY (load_settings getenv) = Some key) as K.
  { unfold load_settings, or_else. cbn [GOOGLE_API_KEY]. now rewrite Hg, Hk. }
  split; [exact K|]. split; [|split].
  - unfold get_embeddings_service, with_settings. cbn [settings].
    rewrite P, K. cbn. now rewrite Hn.
  - unfold EMBEDDING_DIMENSION. now rewrite P.
  - intro I. unfold get_llm, with_settings. cbn [settings llm_init].
    rewrite P. cbn. now rewrite I.
Qed.

Lemma gemini_is_the_default_witness :
  GOOGLE_API_KEY (load_settings sample_getenv) = Some "k-123" /\
  get_embeddings_service (with_settings (load_settings sample_getenv)
                            (sample_env no_fault))
  = Ok (GoogleGenerativeAIEmbeddings "models/text-embedding-004") /\
  EMBEDDING_DIMENSION (load_settings sample_getenv) = 768 /\
  (llm_init (sample_env no_fault)
     (mkLLM "gemini"
        (getenv_default sample_getenv "GEMINI_MODEL" "gemini-2.0-flash") 7)
   = None ->
   get_llm (with_settings (load_settings sample_getenv) (sample_env no_fault))
   = Ok (mkLLM "gemini"
           (getenv_default sample_getenv "GEMINI_MODEL" "gemini-2.0-flash") 7)).
Proof.
  apply (@gemini_is_the_default sample_getenv (sample_env no_fault) "k-123");
    try reflexivity.
  right. exists "Gemini". split; reflexivity.
Defined.

(* ------------------------------------------------------------------ *)
(** ** The history of a session *)

(** X21. The history read for a turn holds messages of the store that
    belong to the session of the turn, and no other; it has at most 6 of
    them, in the order of their creation times; when the session has at most
    6 messages it holds them all. *)
Theorem read_history_own_session (env : Env) (session_id : string)
  (w w' : World) (history : list Message) :
  read_history env session_id w = (Ok history, w') ->
  List.length history <= 6 /\
  (forall m, In m history ->
     In m (messages (db w)) /\ msg_session_id m = session_id) /\
  StronglySorted (fun a b => msg_created_at a <= msg_created_at b) history /\
  (List.length (session_messages (db w) session_id) <= 6 ->
   Permutation history (session_messages (db w) session_id)).
Proof.
  intro H. cbv [read_history db_execute await bind get ret] in H.
  destruct (fault env (calls w)); [discriminate|].
  inversion H; subst. clear H. cbn [db tick].
  split; [|split; [|split]].
  - rewrite length_rev. unfold last_messages. rewrite length_firstn. lia.
  - intros m Hm. apply in_rev in Hm. unfold last_messages in Hm.
    apply In_firstn in Hm.
    apply (Permutation_in _ (Permutation_sym (sort_by_perm newer _))) in Hm.
    apply filter_In in Hm. destruct Hm as [Hm E]. apply String.eqb_eq in E. auto.
  - apply (StronglySorted_rev (last_messages_sorted 6 session_id (db w))).
  - intro L. unfold last_messages.
    rewrite firstn_all2
      by (rewrite <- (Permutation_length (sort_by_perm newer _)); exact L).
    rewrite <- Permutation_rev. apply Permutation_sym, sort_by_perm.
Qed.

Lemma read_history_own_session_witness :
  let history := [mkMessage 3 "s1" "user" "hello" 2;
                  mkMessage 4 "s1" "assistant" "Hello" 3] in
  List.length history <= 6 /\
  (forall m, In m history ->
     In m (messages (db library_world)) /\ msg_session_id m = "s1") /\
  StronglySorted (fun a b => msg_created_at a <= msg_created_at b) history /\
  (List.length (session_messages (db library_world) "s1") <= 6 ->
   Permutation history (session_messages (db library_world) "s1")).
Proof.
  apply (@read_history_own_session (sample_env no_fault) "s1" library_world
           (tick library_world)).
  reflexivity.
Defined.

(* ------------------------------------------------------------------ *)
(** ** Uploads without a name *)

(** X22. An upload whose file name is absent or empty is handled under the
    name ["unknown"], which has no supported extension: it is refused with
    the 400 error of unsupported formats and the world is left as it was. *)
Theorem unnamed_upload_rejected (env : Env) (file : UploadFile)
  (session_id : string) (w : World) :
  filename file = None \/ filename file = Some "" ->
  upload_filename file = "unknown" /\
  process_file env file session_id w
  = (Raise (error_reading_file unsupported_format), w).
Proof.
  intro H.
  assert (upload_filename file = "unknown") as U
    by (unfold upload_filename; destruct H as [-> | ->]; reflexivity).
  split; [exact U|].
  unfold process_file, read_content, bind, try_except. rewrite U. reflexivity.
Qed.

Lemma unnamed_upload_rejected_witness :
  upload_filename (mkUploadFile None [x61]) = "unknown" /\
  process_file (sample_env no_fault) (mkUploadFile None [x61]) "s1" session_world
  = (Raise (error_reading_file unsupported_format), session_world).
Proof.
  apply (@unnamed_upload_rejected (sample_env no_fault) (mkUploadFile None [x61])
           "s1" session_world).
  left. reflexivity.
Defined.

(* ------------------------------------------------------------------ *)
(** ** The order of the stages *)

(** After a successful stage 1 from an empty unit of work the session is in
    the store and the unit of work is empty. *)
Lemma ensure_session_has_session (env : Env) (session_id : string) (w w' : World)
  (summary : string) :
  pending w = [] ->
  ensure_session env session_id w = (Ok summary, w') ->
  has_session (db w') session_id = true /\ pending w' = [].
Proof.
  intros P H.
  cbv [ensure_session db_execute db_add db_commit await bind modify get ret] in H.
  destruct (fault env (calls w)); [discriminate|].
  cbn [db tick calls] in H.
  destruct (find_session session_id (db w)) as [s|] eqn:N.
  - inversion H; subst. cbn. destruct (find_session_some _ _ N) as (HS & _). auto.
  - world_step_in H.
    destruct (fault env (S (calls w))); [discriminate|].
    world_step_in H.
    rewrite P in H. cbn [app flush insert_row] in H.
    destruct (has_session (db w) session_id); [discriminate|].
    cbn in H. inversion H; subst. cbn [db pending committed].
    split; [apply has_session_app | reflexivity].
Qed.

(** X23. Because a turn makes sure of its session before it stores the user
    message, the insertion of the user message never breaks the foreign key
    of [messages.session_id]: after a successful stage 1 from an empty unit
    of work, stage 2 succeeds whenever the store accepts the commit, and
    appends exactly the user message. *)
Theorem user_message_finds_its_session (env : Env)
  (session_id user_query summary : string) (w w1 : World) :
  pending w = [] ->
  ensure_session env session_id w = (Ok summary, w1) ->
  fault env (calls w1) = None ->
  exists w2,
    save_message env session_id "user" user_query w1 = (Ok tt, w2) /\
    messages (db w2)
    = messages (db w1)
      ++ [mkMessage (next_id w1) session_id "user" user_query (now w1)] /\
    sessions (db w2) = sessions (db w1).
Proof.
  intros P E F.
  destruct (@ensure_session_has_session env session_id w w1 summary P E)
    as (HS & P1).
  eexists. split; [apply save_message_stored; assumption|]. cbn. auto.
Qed.

Lemma user_message_finds_its_session_witness :
  exists w2,
    save_message (sample_env (quota_from 6)) "s1" "user" "hi" (snd quota_stage1)
    = (Ok tt, w2) /\
    messages (db w2)
    = messages (db (snd quota_stage1))
      ++ [mkMessage (next_id (snd quota_stage1)) "s1" "user" "hi"
            (now (snd quota_stage1))] /\
    sessions (db w2) = sessions (db (snd quota_stage1)).
Proof.
  apply (@user_message_finds_its_session (sample_env (quota_from 6)) "s1" "hi" ""
           empty_world (snd quota_stage1)); reflexivity.
Defined.

(** The history of a turn ends with the message the turn has stored. *)
Lemma prepare_turn_history (env : Env) (session_id user_query : string)
  (w w' : World) (summary context : string) (history : list Message) :
  pending w = [] ->
  (forall m, In m (messages (db w)) -> msg_created_at m < now w) ->
  prepare_turn env session_id user_query w = (Ok (summary, context, history), w') ->
  exists older current,
    history = older ++ [current] /\
    msg_role current = "user" /\
    msg_content current = user_query /\
    Forall (fun m => In m (messages (db w))) older.
Proof.
  intros P Clock H.
  unfold prepare_turn in H. unfold bind at 1 in H.
  destruct (ensure_session env session_id w) as [[s|e] w1] eqn:E1; [|discriminate].
  unfold bind at 1 in H.
  destruct (save_message env session_id "user" user_query w1)
    as [[[]|e] w2] eqn:E2; [|discriminate].
  unfold bind at 1 in H.
  destruct (retrieve_context env session_id user_query w2)
    as [[c|e] w3] eqn:E3; [|discriminate].
  apply retrieve_context_same_db in E3. unfold same_db in E3.
  destruct (@ensure_session_ok _ _ _ _ _ P E1) as (P1 & M1 & N1).
  pose proof (@save_message_ok _ _ _ _ _ _ P1 E2) as M2.
  cbv [read_history db_execute await bind get ret] in H.
  destruct (fault env (calls w3)); [discriminate|].
  inversion H; subst. clear H. cbn [db tick].
  set (current := mkMessage (next_id w1) session_id "user" user_query (now w1)) in *.
  assert (sort_by newer (session_messages (db w3) session_id)
          = current :: sort_by newer (session_messages (db w) session_id)) as SO.
  { unfold session_messages. rewrite E3, M2, M1, filter_app. simpl.
    rewrite String.eqb_refl. apply sort_by_newer_last. intros x Hx.
    apply filter_In in Hx. destruct Hx as [Hx _]. apply Clock in Hx.
    simpl. lia. }
  exists (rev (firstn 5 (sort_by newer (session_messages (db w) session_id)))),
         current.
  split; [unfold last_messages; now rewrite SO|]. split; [reflexivity|].
  split; [reflexivity|].
  apply Forall_forall. intros m Hm. apply in_rev, In_firstn in Hm.
  apply (Permutation_in _ (Permutation_sym (sort_by_perm newer _))) in Hm.
  apply filter_In in Hm. tauto.
Qed.

(** X24. In a turn that starts with an empty unit of work on a store whose
    messages are older than the server clock, the list of messages built for
    the model starts with the system message, which carries the context and
    the summary, and ends with the question of the turn as a human message;
    between them come only earlier messages of the store. *)
Theorem question_ends_prompt (env : Env) (session_id user_query : string)
  (w w' : World) (summary context : string) (history : list Message) :
  pending w = [] ->
  (forall m, In m (messages (db w)) -> msg_created_at m < now w) ->
  prepare_turn env session_id user_query w = (Ok (summary, context, history), w') ->
  exists older,
    build_messages context summary history
    = SystemMessage (system_prompt context summary)
      :: flat_map history_message older ++ [HumanMessage user_query] /\
    Forall (fun m => In m (messages (db w))) older.
Proof.
  intros P Clock H.
  destruct (@prepare_turn_history env session_id user_query w w' summary context
              history P Clock H)
    as (older & current & -> & Hr & Hc & Ho).
  exists older. split; [|exact Ho].
  unfold build_messages. rewrite flat_map_app. simpl.
  unfold history_message at 2. rewrite Hr, Hc. reflexivity.
Qed.

Lemma question_ends_prompt_witness :
  exists older,
    build_messages
      (match fst chat_turn with Ok (_, c, _) => c | Raise _ => "" end) ""
      [mkMessage 3 "s1" "user" "hello" 2;
       mkMessage 4 "s1" "assistant" "Hello" 3;
       mkMessage 16 "s1" "user" "and then?" 6]
    = SystemMessage
        (system_prompt
           (match fst chat_turn with Ok (_, c, _) => c | Raise _ => "" end) "")
      :: flat_map history_message older ++ [HumanMessage "and then?"] /\
    Forall (fun m => In m (messages (db library_world))) older.
Proof.
  apply (@question_ends_prompt (sample_env no_fault) "s1" "and then?"
           library_world (snd chat_turn)).
  - reflexivity.
  - simpl. intros m [<-|[<-|[]]]; simpl; lia.
  - reflexivity.
Defined.
